(** * plot_results.py: the goodput charts of the fairness simulation

    A model of [src/fst/simulation/plot_results.py].  The script is a
    straight-line sequence of pandas and matplotlib calls: it loads two
    CSV files, moves the [t] column into the index, groups by [name],
    selects [goodput], draws one line per group on one of two stacked
    axes, labels them and shows the figure.

    The script itself is embedded line by line in a state-and-exception
    monad over a [world] that holds the files on disk, the heap of
    DataFrame objects (so that [inplace = True] is a mutation of a shared
    object), the axes of the figure, the log of library calls and what was
    put on screen.  The library calls are given their documented behaviour
    on a small data model: a cell is a number, a string or NaN. *)

From stdpp Require Import base option list sorting gmap strings.
From Stdlib Require Import ZArith Lia.

Open Scope string_scope.
Open Scope list_scope.
Open Scope Z_scope.

(** ** Data model *)

(** A cell as the CSV reader types it: a number, text, or a missing field
    ([SNaN]).  The script never computes with the numbers, it only moves
    and compares them; they are written as integers. *)
Inductive scalar : Type :=
  | SNum (z : Z)
  | SStr (s : string)
  | SNaN.

#[global] Instance scalar_eq_dec : EqDecision scalar.
Proof. solve_decision. Defined.

Definition notna (v : scalar) : bool :=
  match v with SNaN => false | _ => true end.

(** Membership of a value in a numeric (int64 / float64) column. *)
Definition is_number (v : scalar) : bool :=
  match v with SStr _ => false | _ => true end.

Definition in_int64 (z : Z) : bool := (- 2 ^ 63 <=? z) && (z <? 2 ^ 63).
Definition in_uint64 (z : Z) : bool := (0 <=? z) && (z <? 2 ^ 64).

(** The dtype test of a column or of an index.  A column is numeric when
    no cell is text and its numbers fit the reader's integer types: all
    within int64 (missing cells then make it float64), or, with no cell
    missing, all within uint64.  Any other column is kept as objects. *)
Definition is_numeric_dtype (vs : list scalar) : bool :=
  forallb is_number vs
  && (forallb (fun v => match v with SNum z => in_int64 z | _ => true end) vs
      || forallb (fun v => match v with SNum z => in_uint64 z | _ => false end) vs).

(** The order in which group keys are sorted: numbers by value, strings
    by code point, numbers before strings. *)
Definition scalar_leb (a b : scalar) : bool :=
  match a, b with
  | SNum x, SNum y => Z.leb x y
  | SNum _, _ => true
  | SStr _, SNum _ => false
  | SStr x, SStr y => String.leb x y
  | SStr _, SNaN => true
  | SNaN, SNaN => true
  | SNaN, _ => false
  end.

Definition scalar_le (a b : scalar) : Prop := Is_true (scalar_leb a b).

#[global] Instance scalar_le_dec : RelDecision scalar_le.
Proof. intros a b. unfold scalar_le. apply _. Defined.

(** What is on disk under a file name, as [read_csv] finds it: content it
    cannot read as a table ([Malformed]: bad tokens, no columns, bytes
    that are not text), or the table it returns, the labels of the header
    and the records with their cells typed.  In a table the reader
    returns the labels are distinct and not empty, no record has more
    cells than the header has labels, and no text cell is a marker of a
    missing value; [tidy] below says so. *)
Inductive file : Type :=
  | Malformed
  | Csv (header : list string) (records : list (list scalar)).

(** A DataFrame: an index (named once a column was moved into it) and the
    labelled columns. *)
Record DataFrame : Type := mkFrame {
  index_name : option string;
  index : list scalar;
  columns : list (string * list scalar)
}.

(** A drawn line. *)
Record Line : Type := mkLine {
  line_label : scalar;
  line_xdata : list scalar;
  line_ydata : list scalar
}.

Record Axes : Type := mkAxes {
  ax_lines : list Line;
  ax_legend : bool;
  ax_xlabel : string;
  ax_ylabel : string;
  ax_title : string
}.

Definition empty_axes : Axes := mkAxes [] false "" "" "".

(** A reference to a DataFrame object on the heap. *)
Definition ref : Type := nat.

(** [df.groupby(key)]: the frame it refers to and the grouping vector. *)
Record DataFrameGroupBy : Type := mkDataFrameGroupBy {
  dgb_obj : ref;
  dgb_grouper : list scalar
}.

(** [df.groupby(key)[column]]. *)
Record SeriesGroupBy : Type := mkSeriesGroupBy {
  sgb_obj : ref;
  sgb_grouper : list scalar;
  sgb_selection : string
}.

(** The library calls of the script, as they are logged. *)
Inductive call : Type :=
  | call_subplots (nrows ncols : nat)
  | call_read_csv (path : string)
  | call_set_index (key : string)
  | call_groupby (key : string)
  | call_getitem (key : string)
  | call_plot (ax : nat)
  | call_set_xlabel (ax : nat) (s : string)
  | call_set_ylabel (ax : nat) (s : string)
  | call_set_title (ax : nat) (s : string)
  | call_tight_layout
  | call_show.

#[global] Instance call_eq_dec : EqDecision call.
Proof. solve_decision. Defined.

Inductive exn : Type :=
  | FileNotFoundError (path : string)
  | ParserError (path : string)   (* whichever error [read_csv] raises on
                                    content it cannot read as a table *)
  | KeyError (key : string)
  | ValueError (key : string)
  | TypeError
  | IndexError
  | ReferenceError.

Inductive result (A : Type) : Type :=
  | Ok (a : A)
  | Raise (e : exn).
Arguments Ok {A} a.
Arguments Raise {A} e.

Record world : Type := mkWorld {
  files : gmap string file;
  frames : list DataFrame;
  figure : list Axes;
  calls : list call;
  screen : list (list Axes)
}.

Definition set_frames (fr : list DataFrame) (w : world) : world :=
  mkWorld (files w) fr (figure w) (calls w) (screen w).
Definition set_figure (fg : list Axes) (w : world) : world :=
  mkWorld (files w) (frames w) fg (calls w) (screen w).
Definition set_screen (sc : list (list Axes)) (w : world) : world :=
  mkWorld (files w) (frames w) (figure w) (calls w) sc.
Definition log (c : call) (w : world) : world :=
  mkWorld (files w) (frames w) (figure w) (calls w ++ [c]) (screen w).

(** ** The monad of the script: state, and exceptions that keep the state
    reached when they are raised. *)
Definition M (A : Type) : Type := world -> result A * world.

Definition ret {A} (a : A) : M A := fun w => (Ok a, w).
Definition raise {A} (e : exn) : M A := fun w => (Raise e, w).
Definition bind {A B} (m : M A) (k : A -> M B) : M B :=
  fun w => match m w with
           | (Ok a, w') => k a w'
           | (Raise e, w') => (Raise e, w')
           end.

#[global] Instance M_ret : MRet M := @ret.
#[global] Instance M_bind : MBind M := fun A B k m => bind m k.

(** A library call is entered: it is written to the log. *)
Definition modify (f : world -> world) : M unit := fun w => (Ok tt, f w).

(** A library call is entered: it is written to the log. *)
Definition called (c : call) : M unit := modify (log c).

(** ** pandas *)

Fixpoint get_column (key : string) (cols : list (string * list scalar))
  : option (list scalar) :=
  match cols with
  | [] => None
  | (c, vs) :: cols' => if decide (c = key) then Some vs else get_column key cols'
  end.

Fixpoint drop_column (key : string) (cols : list (string * list scalar))
  : list (string * list scalar) :=
  match cols with
  | [] => []
  | (c, vs) :: cols' =>
      if decide (c = key) then cols' else (c, vs) :: drop_column key cols'
  end.

(** The field of a record under header position [j]; a short record is
    padded with NaN.  (The records of a table hold no cell beyond the
    header, see [tidy].) *)
Definition field_at (j : nat) (r : list scalar) : scalar := default SNaN (r !! j).

Definition frame_of_csv (header : list string) (records : list (list scalar))
  : DataFrame :=
  mkFrame None
          (fmap (fun i => SNum (Z.of_nat i)) (seq 0 (length records)))
          (imap (fun j c => (c, fmap (field_at j) records)) header).

(** [pd.read_csv(path)] *)
Definition open_file (path : string) : M file := fun w =>
  match files w !! path with
  | Some c => (Ok c, w)
  | None => (Raise (FileNotFoundError path), w)
  end.

(** A new object on the heap. *)
Definition alloc (f : DataFrame) : M ref := fun w =>
  (Ok (length (frames w)), set_frames (frames w ++ [f]) w).

Definition pd_read_csv (path : string) : M ref :=
  called (call_read_csv path) ;;
  c ← open_file path;
  match c with
  | Malformed => raise (ParserError path)
  | Csv header records => alloc (frame_of_csv header records)
  end.

Definition deref (df : ref) : M DataFrame := fun w =>
  match frames w !! df with
  | Some f => (Ok f, w)
  | None => (Raise ReferenceError, w)
  end.

(** [df.set_index(key, inplace = True)]: the object [df] refers to is
    overwritten; the column leaves [columns] (drop = True). *)
Definition df_set_index (df : ref) (key : string) : M unit :=
  called (call_set_index key) ;;
  f ← deref df;
  match get_column key (columns f) with
  | None => raise (KeyError key)
  | Some vs =>
      modify (fun w =>
        set_frames (<[df := mkFrame (Some key) vs (drop_column key (columns f))]>
                      (frames w)) w)
  end.

(** [df.groupby(key)]: the key names a column or the index. *)
Definition df_groupby (df : ref) (key : string) : M DataFrameGroupBy :=
  called (call_groupby key) ;;
  f ← deref df;
  match get_column key (columns f) with
  | Some vs =>
      if decide (index_name f = Some key) then raise (ValueError key)
      else ret (mkDataFrameGroupBy df vs)
  | None =>
      if decide (index_name f = Some key)
      then ret (mkDataFrameGroupBy df (index f))
      else raise (KeyError key)
  end.

(** [g[key]] on a DataFrameGroupBy. *)
Definition gb_getitem (g : DataFrameGroupBy) (key : string) : M SeriesGroupBy :=
  called (call_getitem key) ;;
  f ← deref (dgb_obj g);
  match get_column key (columns f) with
  | None => raise (KeyError key)
  | Some _ => ret (mkSeriesGroupBy (dgb_obj g) (dgb_grouper g) key)
  end.

(** The group keys: the distinct values of the grouping vector that are
    not NaN (dropna = True), sorted (sort = True). *)
Definition group_keys (grouper : list scalar) : list scalar :=
  merge_sort scalar_le
    (remove_dups (filter (fun v => Is_true (notna v)) grouper)).

(** The rows of a series, each with its group key. *)
Definition keyed_series (grouper idx vals : list scalar)
  : list (scalar * (scalar * scalar)) :=
  zip grouper (zip idx vals).

(** The rows of one group, in the order of the frame. *)
Definition group_series (k : scalar) (rows : list (scalar * (scalar * scalar)))
  : list (scalar * scalar) :=
  fmap snd (filter (fun r => fst r = k) rows).

(** [Series.plot] of one group: x is the index when it is numeric and the
    position otherwise; the label is the group key. *)
Definition series_line (numeric_index : bool) (k : scalar)
                       (s : list (scalar * scalar)) : Line :=
  mkLine k
         (if numeric_index then fmap fst s
          else fmap (fun i => SNum (Z.of_nat i)) (seq 0 (length s)))
         (fmap snd s).

Definition group_lines (grouper idx vals : list scalar) : list Line :=
  fmap (fun k => series_line (is_numeric_dtype idx) k
                            (group_series k (keyed_series grouper idx vals)))
      (group_keys grouper).

Definition axes_at (ax : nat) : M Axes := fun w =>
  match figure w !! ax with
  | Some a => (Ok a, w)
  | None => (Raise IndexError, w)
  end.

Definition update_axes (ax : nat) (a : Axes) : M unit :=
  modify (fun w => set_figure (<[ax := a]> (figure w)) w).

(** [g.plot(ax = ax, legend = legend)] on a SeriesGroupBy: [Series.plot]
    is applied to each group in key order; a column that is not numeric
    makes the first application raise, before anything is drawn. *)
Definition sgb_plot (g : SeriesGroupBy) (ax : nat) (legend : bool) : M unit :=
  called (call_plot ax) ;;
  f ← deref (sgb_obj g);
  match get_column (sgb_selection g) (columns f) with
  | None => raise (KeyError (sgb_selection g))
  | Some vals =>
      let ls := group_lines (sgb_grouper g) (index f) vals in
      match ls with
      | [] => ret tt
      | _ :: _ =>
          if is_numeric_dtype vals then
            a ← axes_at ax;
            update_axes ax (mkAxes (ax_lines a ++ ls) (legend || ax_legend a)
                                   (ax_xlabel a) (ax_ylabel a) (ax_title a))
          else raise TypeError
      end
  end.

(** ** matplotlib *)

(** [plt.subplots(nrows, ncols)]: a new figure; the figure handle and the
    array of the positions of its axes are returned. *)
Definition plt_subplots (nrows ncols : nat) : M (unit * list nat) :=
  called (call_subplots nrows ncols) ;;
  modify (set_figure (replicate (nrows * ncols) empty_axes)) ;;
  mret (tt, seq 0 (nrows * ncols)).

(** [axes[i]] *)
Definition getitem {A} (l : list A) (i : nat) : M A :=
  match l !! i with
  | Some a => ret a
  | None => raise IndexError
  end.

Definition ax_set_xlabel (ax : nat) (s : string) : M unit :=
  called (call_set_xlabel ax s) ;;
  a ← axes_at ax;
  update_axes ax (mkAxes (ax_lines a) (ax_legend a) s (ax_ylabel a) (ax_title a)).

Definition ax_set_ylabel (ax : nat) (s : string) : M unit :=
  called (call_set_ylabel ax s) ;;
  a ← axes_at ax;
  update_axes ax (mkAxes (ax_lines a) (ax_legend a) (ax_xlabel a) s (ax_title a)).

Definition ax_set_title (ax : nat) (s : string) : M unit :=
  called (call_set_title ax s) ;;
  a ← axes_at ax;
  update_axes ax (mkAxes (ax_lines a) (ax_legend a) (ax_xlabel a) (ax_ylabel a) s).

(** [plt.tight_layout()]: geometry only. *)
Definition plt_tight_layout : M unit := called call_tight_layout.

(** [plt.show()]: the figure as it stands is put on screen. *)
Definition plt_show : M unit :=
  called call_show ;;
  modify (fun w => set_screen (screen w ++ [figure w]) w).

(** ** The script *)

Definition sfq_csv : string := "StepSFQ_baseline_timestep-1-sec.csv".
Definition bf_csv : string := "StepBF_baseline_timestep-1-sec.csv".

(** Lines 6 to 13. *)
Definition chart1 (axes : list nat) : M unit :=
  df1 ← pd_read_csv "StepSFQ_baseline_timestep-1-sec.csv";
  df_set_index df1 "t" ;;
  df1 ← (g ← df_groupby df1 "name"; gb_getitem g "goodput");
  ax1 ← getitem axes 0;
  sgb_plot df1 ax1 true ;;
  ax_set_xlabel ax1 "Time (s)" ;;
  ax_set_ylabel ax1 "Goodput (tps)" ;;
  ax_set_title ax1 "Goodput with Fairness (Stochastic Fairness Queueing)".

(** Lines 15 to 22. *)
Definition chart2 (axes : list nat) : M unit :=
  df2 ← pd_read_csv "StepBF_baseline_timestep-1-sec.csv";
  df_set_index df2 "t" ;;
  df2 ← (g ← df_groupby df2 "name"; gb_getitem g "goodput");
  ax2 ← getitem axes 1;
  sgb_plot df2 ax2 true ;;
  ax_set_xlabel ax2 "Time (s)" ;;
  ax_set_ylabel ax2 "Goodput (tps)" ;;
  ax_set_title ax2 "Goodput with Fairness (Bloom Filter)".

(** Lines 4 to 25. *)
Definition plot_results : M unit :=
  '(fig, axes) ← plt_subplots 2 1;
  chart1 axes ;;
  chart2 axes ;;
  plt_tight_layout ;;
  plt_show.

(** The process starts with the given files and nothing else. *)
Definition boot (fs : gmap string file) : world := mkWorld fs [] [] [] [].

Definition run (fs : gmap string file) : result unit * world :=
  plot_results (boot fs).

Definition outcome (fs : gmap string file) : result unit := fst (run fs).
Definition final (fs : gmap string file) : world := snd (run fs).

(** ** The same processing, once, with the file, the axes and the title
    as parameters *)

Definition process_file (path : string) (i : nat) (title : string)
                        (axes : list nat) : M unit :=
  df ← pd_read_csv path;
  df_set_index df "t" ;;
  df ← (g ← df_groupby df "name"; gb_getitem g "goodput");
  ax ← getitem axes i;
  sgb_plot df ax true ;;
  ax_set_xlabel ax "Time (s)" ;;
  ax_set_ylabel ax "Goodput (tps)" ;;
  ax_set_title ax title.

Definition sfq_title : string :=
  "Goodput with Fairness (Stochastic Fairness Queueing)".
Definition bf_title : string := "Goodput with Fairness (Bloom Filter)".

(** ** Vocabulary of the statements *)

(** The position of a column in the header. *)
Fixpoint column_pos (key : string) (header : list string) : option nat :=
  match header with
  | [] => None
  | c :: header' =>
      if decide (c = key) then Some 0%nat else S <$> column_pos key header'
  end.

(** The field of a record under a column name. *)
Definition field (header : list string) (key : string) (r : list scalar) : scalar :=
  match column_pos key header with
  | Some j => field_at j r
  | None => SNaN
  end.

Definition is_upper (a : Ascii.ascii) : bool :=
  (65 <=? Ascii.N_of_ascii a)%N && (Ascii.N_of_ascii a <=? 90)%N.
Definition is_lower (a : Ascii.ascii) : bool :=
  (97 <=? Ascii.N_of_ascii a)%N && (Ascii.N_of_ascii a <=? 122)%N.

Fixpoint lowercase (s : string) : string :=
  match s with
  | EmptyString => EmptyString
  | String a s' =>
      String (if is_upper a then Ascii.ascii_of_N (Ascii.N_of_ascii a + 32) else a)
             (lowercase s')
  end.

(** Words the reader does not keep as text: markers of a missing value,
    of a number and of a truth value. *)
Definition reserved_words : list string :=
  [ "n/a"; "na"; "nan"; "null"; "none"; "inf"; "infinity"; "true"; "false" ].

(** Text the reader keeps as text whatever else the column holds: it
    starts with a letter and is none of the reserved words. *)
Definition plain_text (s : string) : bool :=
  match s with
  | EmptyString => false
  | String a _ =>
      (is_upper a || is_lower a) && negb (bool_decide (lowercase s ∈ reserved_words))
  end.

(** A cell the reader types as the table holds it: a number within int64,
    plain text, or missing. *)
Definition tidy_cell (v : scalar) : bool :=
  match v with
  | SNum z => in_int64 z
  | SStr s => plain_text s
  | SNaN => true
  end.

(** A table as the reader returns it: distinct labels, none empty, no
    record longer than the header, every cell tidy. *)
Definition tidy (c : option file) : bool :=
  match c with
  | Some (Csv h rs) =>
      bool_decide (NoDup h) && forallb (fun l => negb (bool_decide (l = ""))) h
      && forallb (fun r => (length r <=? length h)%nat && forallb tidy_cell r) rs
  | _ => false
  end.

Definition is_text (v : scalar) : bool :=
  match v with SStr _ => true | _ => false end.

(** A file that follows the data model: a tidy table with the three
    columns, in which [t] and [goodput] are numbers (or missing) and
    every record has a name, the names being all text or all numbers. *)
Definition well_formed (c : option file) : bool :=
  match c with
  | Some (Csv h rs) =>
      tidy c
      && bool_decide ("t" ∈ h) && bool_decide ("name" ∈ h)
      && bool_decide ("goodput" ∈ h)
      && forallb (fun r => is_number (field h "t" r)
                           && notna (field h "name" r)
                           && is_number (field h "goodput" r)) rs
      && (forallb (fun r => is_text (field h "name" r)) rs
          || forallb (fun r => is_number (field h "name" r)) rs)
  | _ => false
  end.

Definition well_formed_inputs (fs : gmap string file) : Prop :=
  well_formed (fs !! sfq_csv) = true /\ well_formed (fs !! bf_csv) = true.

(** The records of a file, and the values of one of its columns. *)
Definition records_of (c : option file) : list (list scalar) :=
  match c with Some (Csv _ rs) => rs | _ => [] end.
Definition header_of (c : option file) : list string :=
  match c with Some (Csv h _) => h | _ => [] end.
Definition column_of (c : option file) (key : string) : list scalar :=
  fmap (field (header_of c) key) (records_of c).


(** The lines of a subplot of the figure. *)
Definition subplot (i : nat) (w : world) : list Line :=
  default [] (ax_lines <$> figure w !! i).

Definition line_points (l : Line) : list (scalar * scalar) :=
  zip (line_xdata l) (line_ydata l).

(** ** What processing one file does, as a function of the file *)

Definition indexed_frame (h : list string) (rs : list (list scalar)) : DataFrame :=
  mkFrame (Some "t") (fmap (field h "t") rs)
          (drop_column "t" (columns (frame_of_csv h rs))).

Definition chart_lines (h : list string) (rs : list (list scalar)) : list Line :=
  group_lines (fmap (field h "name") rs) (fmap (field h "t") rs)
              (fmap (field h "goodput") rs).

Definition draw (ls : list Line) (title : string) (a : Axes) : Axes :=
  mkAxes (ax_lines a ++ ls)
         (match ls with [] => ax_legend a | _ => true end)
         "Time (s)" "Goodput (tps)" title.

Record effect : Type := mkEffect {
  eff_result : result unit;
  eff_frames : list DataFrame;
  eff_calls : list call;
  eff_draw : Axes -> Axes
}.

Definition steps (path : string) (ax : nat) (title : string) : list call :=
  [ call_read_csv path; call_set_index "t"; call_groupby "name";
    call_getitem "goodput"; call_plot ax; call_set_xlabel ax "Time (s)";
    call_set_ylabel ax "Goodput (tps)"; call_set_title ax title ].

Definition effect_of (path : string) (ax : nat) (title : string)
                     (c : option file) : effect :=
  match c with
  | None => mkEffect (Raise (FileNotFoundError path)) [] (take 1 (steps path ax title)) id
  | Some Malformed =>
      mkEffect (Raise (ParserError path)) [] (take 1 (steps path ax title)) id
  | Some (Csv h rs) =>
      if negb (bool_decide ("t" ∈ h)) then
        mkEffect (Raise (KeyError "t")) [frame_of_csv h rs]
                 (take 2 (steps path ax title)) id
      else if negb (bool_decide ("name" ∈ h)) then
        mkEffect (Raise (KeyError "name")) [indexed_frame h rs]
                 (take 3 (steps path ax title)) id
      else if negb (bool_decide ("goodput" ∈ h)) then
        mkEffect (Raise (KeyError "goodput")) [indexed_frame h rs]
                 (take 4 (steps path ax title)) id
      else if is_numeric_dtype (fmap (field h "goodput") rs)
              || bool_decide (chart_lines h rs = []) then
        mkEffect (Ok tt) [indexed_frame h rs] (steps path ax title)
                 (draw (chart_lines h rs) title)
      else
        mkEffect (Raise TypeError) [indexed_frame h rs]
                 (take 5 (steps path ax title)) id
  end.

Definition apply_effect (e : effect) (ax : nat) (w : world) : world :=
  mkWorld (files w) (frames w ++ eff_frames e)
          (alter (eff_draw e) ax (figure w))
          (calls w ++ eff_calls e) (screen w).

(** ** Vocabulary of the proofs and of the statements about errors *)

(** The world once the figure is created. *)
Definition stage0 (fs : gmap string file) : world :=
  mkWorld fs [] [empty_axes; empty_axes] [call_subplots 2 1] [].

(** [plt.tight_layout()] and [plt.show()]. *)
Definition show_world (w : world) : world :=
  mkWorld (files w) (frames w) (figure w)
          (calls w ++ [call_tight_layout; call_show])
          (screen w ++ [figure w]).

Definition effect1 (fs : gmap string file) : effect :=
  effect_of sfq_csv 0 sfq_title (fs !! sfq_csv).

Definition effect2 (fs : gmap string file) : effect :=
  effect_of bf_csv 1 bf_title (fs !! bf_csv).

(** The values [t] takes on the records of a group. *)
Definition grouped {R : Type} (key t : R -> scalar) (rs : list R) (k : scalar)
  : list scalar :=
  t <$> filter (fun r => key r = k) rs.

(** The points of the records of a file that carry the name [k], in the
    order of the file. *)
Definition named_points (c : option file) (k : scalar) : list (scalar * scalar) :=
  (fun r => (field (header_of c) "t" r, field (header_of c) "goodput" r))
    <$> filter (fun r => field (header_of c) "name" r = k) (records_of c).




(** The series groupings of a figure: for each subplot, the group names
    with their points. *)
Definition groupings (fg : list Axes) : list (list (scalar * list (scalar * scalar))) :=
  (fun a => (fun l => (line_label l, line_points l)) <$> ax_lines a) <$> fg.

Definition lacks_column (c : option file) (key : string) : Prop :=
  match c with
  | Some (Csv h _) => key ∉ h
  | _ => False
  end.

(** A file the script cannot chart: missing, malformed, or without one of
    the three columns. *)
Definition unusable (c : option file) : Prop :=
  c = None \/ c = Some Malformed \/ lacks_column c "t"
  \/ lacks_column c "name" \/ lacks_column c "goodput".

(** The error such a file raises. *)
Definition expected_error (path : string) (c : option file) : option exn :=
  match c with
  | None => Some (FileNotFoundError path)
  | Some Malformed => Some (ParserError path)
  | Some (Csv h _) =>
      if decide ("t" ∈ h) then
        if decide ("name" ∈ h) then
          if decide ("goodput" ∈ h) then None else Some (KeyError "goodput")
        else Some (KeyError "name")
      else Some (KeyError "t")
  end.

Definition fails_at_load (path : string) (fs : gmap string file) : Prop :=
  exists e, outcome fs = Raise e
            /\ last (calls (final fs)) = Some (call_read_csv path).

(** A computation that leaves the DataFrame objects and the files as they
    are. *)
Definition keeps_frames {A} (m : M A) : Prop :=
  forall w, frames (snd (m w)) = frames w /\ files (snd (m w)) = files w.

(** The world right after the first file is loaded. *)
Definition loaded (fs : gmap string file) : world :=
  snd (pd_read_csv sfq_csv (stage0 fs)).

(** ** Sample inputs *)

(** Two flows; within flow [b] the times are not ascending. *)
Definition sfq_rows : list (list scalar) :=
  [ [SNum 3; SStr "b"; SNum 10];
    [SNum 1; SStr "a"; SNum 20];
    [SNum 2; SStr "b"; SNum 11];
    [SNum 4; SStr "a"; SNum 21] ].

Definition bf_rows : list (list scalar) :=
  [ [SNum 0; SStr "a"; SNum 5];
    [SNum 0; SStr "b"; SNum 6];
    [SNum 0; SStr "c"; SNum 7];
    [SNum 1; SStr "a"; SNum 8] ].

Definition sample_fs : gmap string file :=
  <[sfq_csv := Csv ["t"; "name"; "goodput"] sfq_rows]>
    (<[bf_csv := Csv ["t"; "name"; "goodput"] bf_rows]> ∅).

(** The second file alone. *)
Definition bf_only_fs : gmap string file :=
  <[bf_csv := Csv ["t"; "name"; "goodput"] bf_rows]> ∅.

(** The first file has no [goodput] column. *)
Definition no_goodput_fs : gmap string file :=
  <[sfq_csv := Csv ["t"; "name"] [[SNum 0; SStr "a"]; [SNum 1; SStr "a"]]]>
    (<[bf_csv := Csv ["t"; "name"; "goodput"] bf_rows]> ∅).

(** Both files hold the same records. *)
Definition twin_fs : gmap string file :=
  <[sfq_csv := Csv ["t"; "name"; "goodput"] sfq_rows]>
    (<[bf_csv := Csv ["t"; "name"; "goodput"] sfq_rows]> ∅).

(** ** Vocabulary of the further properties *)

(** The calls of a run that completes. *)
Definition full_log : list call :=
  [ call_subplots 2 1;
    call_read_csv "StepSFQ_baseline_timestep-1-sec.csv";
    call_set_index "t"; call_groupby "name"; call_getitem "goodput";
    call_plot 0; call_set_xlabel 0 "Time (s)";
    call_set_ylabel 0 "Goodput (tps)";
    call_set_title 0 "Goodput with Fairness (Stochastic Fairness Queueing)";
    call_read_csv "StepBF_baseline_timestep-1-sec.csv";
    call_set_index "t"; call_groupby "name"; call_getitem "goodput";
    call_plot 1; call_set_xlabel 1 "Time (s)";
    call_set_ylabel 1 "Goodput (tps)";
    call_set_title 1 "Goodput with Fairness (Bloom Filter)";
    call_tight_layout; call_show ].

(** A tidy table with the three columns in which no [goodput] is text;
    [t] may hold text and names may be missing. *)
Definition chartable (c : option file) : bool :=
  match c with
  | Some (Csv h rs) =>
      tidy c
      && bool_decide ("t" ∈ h) && bool_decide ("name" ∈ h)
      && bool_decide ("goodput" ∈ h)
      && forallb is_number (field h "goodput" <$> rs)
  | _ => false
  end.

(** The records of a file that carry a name. *)
Definition named_records (c : option file) : list (list scalar) :=
  filter (fun r => Is_true (notna (field (header_of c) "name" r))) (records_of c).

(** The y values drawn on a subplot. *)
Definition plotted_y (ls : list Line) : list scalar := concat (line_ydata <$> ls).

(** A frame whose index and columns all have [n] entries. *)
Definition rectangular (n : nat) (f : DataFrame) : Prop :=
  length (index f) = n /\ Forall (fun col => length (snd col) = n) (columns f).

(** The positions [0 .. n-1] as x values. *)
Definition positions (n : nat) : list scalar :=
  (fun i => SNum (Z.of_nat i)) <$> seq 0 n.

(** A tidy table with the three columns and at least one record with a
    name, in which the [goodput] of every record with a name is text. *)
Definition text_goodput (c : option file) : Prop :=
  tidy c = true /\
  ~ unusable c /\
  named_records c <> [] /\
  Forall (fun r => is_number (field (header_of c) "goodput" r) = false)
         (named_records c).

(** Times given as text, and a record without a name. *)
Definition text_times_fs : gmap string file :=
  <[sfq_csv := Csv ["t"; "name"; "goodput"]
                   [ [SStr "early"; SStr "a"; SNum 1];
                     [SStr "noon"; SNaN; SNum 2];
                     [SStr "late"; SStr "a"; SNum 3] ]]>
    (<[bf_csv := Csv ["t"; "name"; "goodput"] bf_rows]> ∅).

(** The first file gives its goodput as text. *)
Definition text_goodput_fs : gmap string file :=
  <[sfq_csv := Csv ["t"; "name"; "goodput"]
                   [ [SNum 0; SStr "a"; SStr "fast"];
                     [SNum 1; SStr "b"; SStr "slow"] ]]>
    (<[bf_csv := Csv ["t"; "name"; "goodput"] bf_rows]> ∅).

(** The second file is not the CSV the tokenizer accepts. *)
Definition bad_second_fs : gmap string file :=
  <[sfq_csv := Csv ["t"; "name"; "goodput"] sfq_rows]>
    (<[bf_csv := Malformed]> ∅).

(** The records of a file that carry the name [k], in file order. *)
Definition records_named (c : option file) (k : scalar) : list (list scalar) :=
  filter (fun r => field (header_of c) "name" r = k) (records_of c).

(** The line of a name: the [t] and the [goodput] values of its records,
    in file order. *)
Definition line_of (c : option file) (k : scalar) : Line :=
  mkLine k (field (header_of c) "t" <$> records_named c k)
           (field (header_of c) "goodput" <$> records_named c k).

(** A frame that holds the records of a file with [t] as its index. *)
Definition indexed_by_t (c : option file) (f : DataFrame) : Prop :=
  index_name f = Some "t" /\ index f = column_of c "t" /\
  get_column "name" (columns f) = Some (column_of c "name") /\
  get_column "goodput" (columns f) = Some (column_of c "goodput").

(** An axes that carries the chart of a file: one line per distinct name,
    each the line of its name, the axes labelled and titled. *)
Definition charts (c : option file) (title : string) (a : Axes) : Prop :=
  Forall (fun l => l = line_of c (line_label l)) (ax_lines a) /\
  line_label <$> ax_lines a ≡ₚ remove_dups (column_of c "name") /\
  ax_xlabel a = "Time (s)" /\ ax_ylabel a = "Goodput (tps)" /\
  ax_title a = title.


(** * Proofs *)

(** ** Columns of a loaded frame *)

Lemma column_pos_Some key h : key ∈ h -> is_Some (column_pos key h).
Proof.
  induction h as [|c h IH]; intros Hin.
  - inversion Hin.
  - simpl. destruct (decide (c = key)) as [->|Hne]; [by eexists|].
    apply elem_of_cons in Hin as [->|Hin]; [done|].
    destruct (IH Hin) as [j ->]. by eexists.
Qed.

Lemma column_pos_None key h : key ∉ h -> column_pos key h = None.
Proof.
  induction h as [|c h IH]; intros Hnin; [done|].
  simpl. apply not_elem_of_cons in Hnin as [Hne Hnin].
  destruct (decide (c = key)) as [->|_]; [done|].
  by rewrite IH.
Qed.

Lemma get_column_imap key (g : nat -> list scalar) h :
  get_column key (imap (fun j c => (c, g j)) h) = g <$> column_pos key h.
Proof.
  revert g. induction h as [|c h IH]; intros g; [done|].
  simpl. destruct (decide (c = key)) as [->|Hne]; [done|].
  change (imap ((fun j c => (c, g j)) ∘ S) h)
    with (imap (fun j c => (c, (g ∘ S) j)) h).
  rewrite IH. by destruct (column_pos key h).
Qed.

Lemma get_column_csv key h rs :
  get_column key (columns (frame_of_csv h rs))
  = if bool_decide (key ∈ h) then Some (fmap (field h key) rs) else None.
Proof.
  unfold frame_of_csv. simpl.
  rewrite (get_column_imap key (fun j => fmap (field_at j) rs)).
  unfold field. case_bool_decide as Hin.
  - destruct (column_pos_Some _ _ Hin) as [j ->]. done.
  - by rewrite column_pos_None.
Qed.

Lemma get_column_drop_ne key k cols :
  key <> k -> get_column key (drop_column k cols) = get_column key cols.
Proof.
  intros Hne. induction cols as [|[c vs] cols IH]; [done|].
  simpl. destruct (decide (c = k)) as [->|Hck].
  - by destruct (decide (k = key)) as [->|_].
  - simpl. by rewrite IH.
Qed.

Lemma get_column_indexed key h rs :
  key <> "t" ->
  get_column key (columns (indexed_frame h rs))
  = if bool_decide (key ∈ h) then Some (fmap (field h key) rs) else None.
Proof.
  intros Hne. unfold indexed_frame. cbn [columns].
  rewrite get_column_drop_ne by done. apply get_column_csv.
Qed.

(** ** Running one file's processing *)

Arguments frame_of_csv : simpl never.
Arguments indexed_frame : simpl never.
Arguments chart_lines : simpl never.
Arguments group_lines : simpl never.
Arguments is_numeric_dtype : simpl never.

Ltac run_step :=
  unfold mbind, M_bind, bind, mret, M_ret, ret, raise, called, modify, deref,
         axes_at, update_axes, getitem, alloc, open_file,
         log, set_frames, set_figure, set_screen; cbn.

Ltac world_eq :=
  rewrite ?list_alter_id by done;
  unfold log, set_frames, set_figure, set_screen; cbn;
  rewrite <- ?app_assoc; cbn; reflexivity.

Ltac relabel :=
  repeat (rewrite ?list_insert_insert_eq;
          rewrite list_lookup_insert_eq by (rewrite ?length_insert; done);
          cbn);
  unfold modify; cbn;
  rewrite ?list_insert_insert_eq.

Lemma list_alter_lookup {A} (f : A -> A) (l : list A) i a :
  l !! i = Some a -> alter f i l = <[i := f a]> l.
Proof.
  revert i. induction l as [|x l IH]; intros [|i] Hl; simplify_eq/=; [done|].
  f_equal. by apply IH.
Qed.

(** Processing a file is its [effect_of], applied to the world. *)
Lemma process_file_effect path i ax title axes w :
  axes !! i = Some ax -> is_Some (figure w !! ax) ->
  process_file path i title axes w
  = (eff_result (effect_of path ax title (files w !! path)),
     apply_effect (effect_of path ax title (files w !! path)) ax w).
Proof.
  intros Hax [a Ha]. destruct w as [fs fr fg cs sc]. cbn in Ha.
  unfold apply_effect, process_file, pd_read_csv. run_step.
  destruct (fs !! path) as [[|h rs]|] eqn:Ef; cbn.
  - rewrite app_nil_r. world_eq.
  - unfold df_set_index. run_step.
    rewrite list_lookup_middle by done. cbn.
    rewrite (get_column_csv "t" h rs).
    case_bool_decide as Ht; cbn.
    2: world_eq.
    rewrite insert_app_r_alt, Nat.sub_diag by done. cbn.
    change (mkFrame _ _ _) with (indexed_frame h rs).
    unfold df_groupby. run_step.
    rewrite list_lookup_middle by done. 
    rewrite (get_column_indexed "name" h rs) by done.
    case_bool_decide as Hn; cbn.
    2: world_eq.
    destruct (decide (index_name (indexed_frame h rs) = Some "name")) as [Hbad|_];
      [discriminate Hbad|].
    unfold gb_getitem. run_step.
    rewrite list_lookup_middle by done. 
    rewrite (get_column_indexed "goodput" h rs) by done.
    case_bool_decide as Hg; cbn.
    2: world_eq.
    rewrite Hax. cbn.
    unfold sgb_plot. run_step.
    rewrite list_lookup_middle by done. 
    rewrite (get_column_indexed "goodput" h rs) by done. cbn.
    change (index (indexed_frame h rs)) with (fmap (field h "t") rs).
    rewrite bool_decide_true by done. cbn.
    change (group_lines _ _ _) with (chart_lines h rs).
    assert (Hlt : (ax < length fg)%nat) by (by eapply lookup_lt_Some).
    unfold ax_set_xlabel, ax_set_ylabel, ax_set_title.
    destruct (chart_lines h rs) as [|l ls] eqn:El.
    + rewrite orb_true_r. run_step. rewrite Ha. cbn.
      relabel.
      rewrite (list_alter_lookup _ _ _ _ Ha).
      unfold draw. rewrite app_nil_r. world_eq.
    + rewrite orb_false_r.
      destruct (is_numeric_dtype (fmap (field h "goodput") rs)) eqn:Enum; run_step.
      2: world_eq.
      rewrite Ha. cbn.
      relabel.
      rewrite (list_alter_lookup _ _ _ _ Ha).
      unfold draw. world_eq.
  - rewrite app_nil_r. world_eq.
Qed.

(** ** Running the script *)

Lemma chart1_process : chart1 = process_file sfq_csv 0 sfq_title.
Proof. reflexivity. Qed.
Lemma chart2_process : chart2 = process_file bf_csv 1 bf_title.
Proof. reflexivity. Qed.

(** The whole run, from the effects of the two files. *)
Lemma run_eq fs :
  run fs =
  match eff_result (effect1 fs) with
  | Raise e => (Raise e, apply_effect (effect1 fs) 0 (stage0 fs))
  | Ok _ =>
      let w1 := apply_effect (effect1 fs) 0 (stage0 fs) in
      match eff_result (effect2 fs) with
      | Raise e => (Raise e, apply_effect (effect2 fs) 1 w1)
      | Ok _ => (Ok tt, show_world (apply_effect (effect2 fs) 1 w1))
      end
  end.
Proof.
  unfold run, plot_results, plt_subplots.
  unfold mbind, M_bind, bind, mret, M_ret, ret, called, modify.
  change (set_figure _ (log _ (boot fs))) with (stage0 fs).
  change (seq 0 (2 * 1)) with [0; 1]%nat.
  rewrite chart1_process, chart2_process.
  rewrite (process_file_effect sfq_csv 0 0 sfq_title [0;1]%nat (stage0 fs))
    by (done || by eexists).
  change (files (stage0 fs) !! sfq_csv) with (fs !! sfq_csv).
  fold (effect1 fs).
  destruct (eff_result (effect1 fs)) as [[]|e]; [|done].
  rewrite (process_file_effect bf_csv 1 1 bf_title [0;1]%nat)
    by (done || (cbn; rewrite list_lookup_alter_ne by done; by eexists)).
  change (files (apply_effect _ _ _) !! bf_csv) with (fs !! bf_csv).
  fold (effect2 fs).
  destruct (eff_result (effect2 fs)) as [[]|e]; [|done].
  unfold plt_tight_layout, plt_show. run_step.
  unfold show_world. cbn. rewrite <- app_assoc. reflexivity.
Qed.
(** ** Tidy tables and well-formed files *)

Lemma tidy_field h rs key r :
  tidy (Some (Csv h rs)) = true -> r ∈ rs -> tidy_cell (field h key r) = true.
Proof.
  cbn [tidy]. rewrite !andb_true_iff.
  intros [_ Hrs] Hr%list_elem_of_In. rewrite forallb_forall in Hrs.
  specialize (Hrs r Hr).
  apply andb_true_iff in Hrs as [_ Hcells]. rewrite forallb_forall in Hcells.
  unfold field. destruct (column_pos key h) as [j|]; [|done].
  unfold field_at. destruct (r !! j) as [v|] eqn:Ev; [|done]. cbn.
  apply Hcells, list_elem_of_In. by eapply list_elem_of_lookup_2.
Qed.

Lemma numeric_of_tidy vs :
  forallb is_number vs = true -> forallb tidy_cell vs = true ->
  is_numeric_dtype vs = true.
Proof.
  intros Hnum Htidy. unfold is_numeric_dtype. rewrite Hnum. cbn.
  apply orb_true_iff. left. rewrite forallb_forall in *.
  intros [z|s|] Hv; [|done|done]. by apply (Htidy (SNum z)).
Qed.

Lemma tidy_column_numeric h rs key :
  tidy (Some (Csv h rs)) = true ->
  (forall r, r ∈ rs -> is_number (field h key r) = true) ->
  is_numeric_dtype (field h key <$> rs) = true.
Proof.
  intros Htidy Hnum. apply numeric_of_tidy; rewrite forallb_forall;
    intros v (r & -> & Hr)%list_elem_of_In%list_elem_of_fmap; eauto using tidy_field.
Qed.

Lemma text_not_numeric vs v :
  v ∈ vs -> is_number v = false -> is_numeric_dtype vs = false.
Proof.
  intros Hv Htext. unfold is_numeric_dtype.
  destruct (forallb is_number vs) eqn:E; [|done].
  rewrite forallb_forall in E. apply list_elem_of_In in Hv.
  by rewrite (E v Hv) in Htext.
Qed.

Lemma well_formed_inv c :
  well_formed c = true ->
  exists h rs, c = Some (Csv h rs) /\ "t" ∈ h /\ "name" ∈ h /\ "goodput" ∈ h
    /\ is_numeric_dtype (fmap (field h "t") rs) = true
    /\ Forall (fun v => Is_true (notna v)) (fmap (field h "name") rs)
    /\ is_numeric_dtype (fmap (field h "goodput") rs) = true.
Proof.
  destruct c as [[|h rs]|]; try discriminate. cbn [well_formed].
  rewrite !andb_true_iff, !bool_decide_eq_true.
  intros [[[[[Htidy Ht] Hn] Hg] Hrs] _]. rewrite forallb_forall in Hrs.
  change (_ /\ _) with (tidy (Some (Csv h rs)) = true) in Htidy.
  exists h, rs.
  assert (Hrs' : forall r, r ∈ rs ->
            is_number (field h "t" r) = true /\ notna (field h "name" r) = true
            /\ is_number (field h "goodput" r) = true).
  { intros r Hr%list_elem_of_In. specialize (Hrs r Hr).
    rewrite !andb_true_iff in Hrs. tauto. }
  repeat split; try done.
  - apply tidy_column_numeric; [done|]. intros r Hr. by apply Hrs'.
  - apply Forall_forall. intros v (r & -> & Hr)%list_elem_of_fmap.
    apply Is_true_true. by apply Hrs'.
  - apply tidy_column_numeric; [done|]. intros r Hr. by apply Hrs'.
Qed.

Lemma effect_of_well_formed path ax title c :
  well_formed c = true ->
  effect_of path ax title c
  = mkEffect (Ok tt) [indexed_frame (header_of c) (records_of c)]
             (steps path ax title)
             (draw (chart_lines (header_of c) (records_of c)) title).
Proof.
  intros (h & rs & -> & Ht & Hn & Hg & _ & _ & Hnum)%well_formed_inv.
  cbn [effect_of header_of records_of].
  rewrite !bool_decide_true by done. cbn [negb]. by rewrite Hnum.
Qed.

Lemma run_well_formed fs :
  well_formed_inputs fs ->
  run fs =
  (Ok tt,
   show_world (apply_effect (effect2 fs) 1 (apply_effect (effect1 fs) 0 (stage0 fs)))).
Proof.
  intros [H1 H2]. rewrite run_eq. unfold effect1 at 1, effect2 at 1.
  rewrite (effect_of_well_formed _ _ _ _ H1), (effect_of_well_formed _ _ _ _ H2).
  reflexivity.
Qed.

Section groups.
Context {R : Type} (key t v : R -> scalar).

Lemma group_series_fmap k rs :
  group_series k (keyed_series (key <$> rs) (t <$> rs) (v <$> rs))
  = (fun r => (t r, v r)) <$> filter (fun r => key r = k) rs.
Proof.
  unfold group_series, keyed_series.
  induction rs as [|r rs IH]; [done|].
  cbn [fmap list_fmap zip zip_with]. rewrite !filter_cons. cbn [fst].
  destruct (decide (key r = k)); cbn; by rewrite IH.
Qed.

Lemma group_lines_fmap rs :
  is_numeric_dtype (t <$> rs) = true ->
  group_lines (key <$> rs) (t <$> rs) (v <$> rs)
  = (fun k => mkLine k (t <$> filter (fun r => key r = k) rs)
                       (v <$> filter (fun r => key r = k) rs))
    <$> group_keys (key <$> rs).
Proof.
  intros Hnum. unfold group_lines. rewrite Hnum.
  apply list_fmap_ext. intros _ k _.
  rewrite group_series_fmap. unfold series_line.
  by rewrite <- !list_fmap_compose.
Qed.
End groups.

Lemma filter_notna_all ks :
  Forall (fun v => Is_true (notna v)) ks ->
  filter (fun v => Is_true (notna v)) ks = ks.
Proof.
  induction 1 as [|k ks Hk _ IH]; [done|]. by rewrite filter_cons_True, IH.
Qed.


Lemma group_keys_elem_of ks k :
  k ∈ group_keys ks <-> Is_true (notna k) /\ k ∈ ks.
Proof.
  unfold group_keys. rewrite merge_sort_Permutation.
  rewrite elem_of_remove_dups, list_elem_of_filter. done.
Qed.

Lemma group_keys_NoDup ks : NoDup (group_keys ks).
Proof.
  unfold group_keys. rewrite merge_sort_Permutation. apply NoDup_remove_dups.
Qed.


Lemma zip_fmap_same {A B C} (f : A -> B) (g : A -> C) (l : list A) :
  zip (f <$> l) (g <$> l) = (fun x => (f x, g x)) <$> l.
Proof. induction l as [|x l IH]; [done|]. cbn. by rewrite IH. Qed.

Lemma chart_lines_well_formed c :
  well_formed c = true ->
  chart_lines (header_of c) (records_of c)
  = (fun k => mkLine k (field (header_of c) "t"
                          <$> filter (fun r => field (header_of c) "name" r = k)
                                     (records_of c))
                       (field (header_of c) "goodput"
                          <$> filter (fun r => field (header_of c) "name" r = k)
                                     (records_of c)))
    <$> group_keys (column_of c "name").
Proof.
  intros (h & rs & -> & _ & _ & _ & Ht & _ & _)%well_formed_inv.
  unfold chart_lines, column_of. cbn [header_of records_of].
  by apply group_lines_fmap.
Qed.


Lemma chart_lines_labels c :
  well_formed c = true ->
  line_label <$> chart_lines (header_of c) (records_of c)
  ≡ₚ remove_dups (column_of c "name").
Proof.
  intros Hwf. rewrite (chart_lines_well_formed c Hwf), <- list_fmap_compose.
  rewrite (list_fmap_ext _ id (group_keys (column_of c "name")))
    by (intros; reflexivity).
  rewrite list_fmap_id. unfold group_keys. rewrite merge_sort_Permutation.
  apply well_formed_inv in Hwf as (h & rs & -> & _ & _ & _ & _ & Hn & _).
  unfold column_of. cbn [header_of records_of].
  by rewrite filter_notna_all.
Qed.

Lemma chart_lines_points c l :
  well_formed c = true ->
  l ∈ chart_lines (header_of c) (records_of c) ->
  line_points l = named_points c (line_label l).
Proof.
  intros Hwf. rewrite (chart_lines_well_formed c Hwf).
  intros (k & -> & _)%list_elem_of_fmap.
  unfold line_points, named_points. cbn. apply zip_fmap_same.
Qed.


Section partition.
Context {R : Type} (key t : R -> scalar).

Lemma groups_cons_other r rs (ks : list scalar) :
  key r ∉ ks -> grouped key t (r :: rs) <$> ks = grouped key t rs <$> ks.
Proof.
  intros Hnin. apply list_fmap_ext. intros _ k Hk%list_elem_of_lookup_2.
  unfold grouped. rewrite filter_cons_False; [done|].
  intros Heq. apply Hnin. by rewrite Heq.
Qed.

Lemma groups_cons_member r rs (ks : list scalar) :
  NoDup ks -> key r ∈ ks ->
  concat (grouped key t (r :: rs) <$> ks)
  ≡ₚ t r :: concat (grouped key t rs <$> ks).
Proof.
  induction 1 as [|k ks Hk Hnd IH]; intros Hin; [by inversion Hin|].
  cbn [fmap list_fmap concat]. unfold grouped at 1 3.
  rewrite filter_cons. destruct (decide (key r = k)) as [Heq|Hne].
  - subst k. change (list_fmap _ _ ?f ks) with (f <$> ks).
    by rewrite groups_cons_other.
  - apply elem_of_cons in Hin as [?|Hin]; [done|].
    change (list_fmap _ _ ?f ks) with (f <$> ks).
    rewrite (IH Hin). by rewrite Permutation_middle.
Qed.

Lemma groups_partition rs (ks : list scalar) :
  NoDup ks -> (forall r, r ∈ rs -> key r ∈ ks) ->
  concat (grouped key t rs <$> ks) ≡ₚ t <$> rs.
Proof.
  intros Hnd. induction rs as [|r rs IH]; intros Hall.
  - clear Hall Hnd. induction ks as [|k ks IH]; [done|]. exact IH.
  - rewrite groups_cons_member; [|done|apply Hall; by left].
    cbn. rewrite IH; [done|]. intros r' Hr'. apply Hall. by right.
Qed.
End partition.







(** ** The final figure and log, from the effects *)

Lemma figure_final fs :
  figure (final fs)
  = [ eff_draw (effect1 fs) empty_axes;
      match eff_result (effect1 fs) with
      | Ok _ => eff_draw (effect2 fs) empty_axes
      | Raise _ => empty_axes
      end ].
Proof.
  unfold final. rewrite run_eq.
  destruct (eff_result (effect1 fs)) as [[]|e1]; [|done].
  by destruct (eff_result (effect2 fs)) as [[]|e2].
Qed.

Lemma calls_final fs :
  calls (final fs)
  = call_subplots 2 1 :: eff_calls (effect1 fs)
    ++ match eff_result (effect1 fs) with
       | Ok _ => eff_calls (effect2 fs)
                 ++ match eff_result (effect2 fs) with
                    | Ok _ => [call_tight_layout; call_show]
                    | Raise _ => []
                    end
       | Raise _ => []
       end.
Proof.
  unfold final. rewrite run_eq.
  destruct (eff_result (effect1 fs)) as [[]|e1]; cbn.
  - destruct (eff_result (effect2 fs)) as [[]|e2]; cbn;
      by rewrite ?app_nil_r, <- ?app_assoc.
  - by rewrite app_nil_r.
Qed.

Lemma screen_final fs :
  screen (final fs)
  = match outcome fs with
    | Ok _ => [figure (final fs)]
    | Raise _ => []
    end.
Proof.
  unfold final, outcome. rewrite run_eq.
  destruct (eff_result (effect1 fs)) as [[]|e1]; [|done].
  by destruct (eff_result (effect2 fs)) as [[]|e2].
Qed.

Lemma outcome_eq fs :
  outcome fs
  = match eff_result (effect1 fs) with
    | Ok _ => eff_result (effect2 fs)
    | Raise e => Raise e
    end.
Proof.
  unfold outcome. rewrite run_eq.
  destruct (eff_result (effect1 fs)) as [[]|e1]; [|done].
  by destruct (eff_result (effect2 fs)) as [[]|e2].
Qed.

Lemma frames_final_eq fs :
  frames (final fs)
  = (eff_frames (effect1 fs)
     ++ match eff_result (effect1 fs) with
        | Ok _ => eff_frames (effect2 fs)
        | Raise _ => []
        end)%list.
Proof.
  unfold final. rewrite run_eq.
  destruct (eff_result (effect1 fs)) as [[]|e1]; cbn.
  - by destruct (eff_result (effect2 fs)) as [[]|e2].
  - by rewrite app_nil_r.
Qed.

Lemma files_final fs : files (final fs) = fs.
Proof.
  unfold final. rewrite run_eq.
  destruct (eff_result (effect1 fs)) as [[]|e1]; [|done].
  by destruct (eff_result (effect2 fs)) as [[]|e2].
Qed.

(** C5. Two runs whose two input files are identical end the same way and
    produce the same series groupings, in the figure and on screen,
    whatever else differs on disk. *)
Theorem rerun_same_groupings fs fs' :
  fs !! sfq_csv = fs' !! sfq_csv ->
  fs !! bf_csv = fs' !! bf_csv ->
  outcome fs = outcome fs' /\
  groupings (figure (final fs)) = groupings (figure (final fs')) /\
  groupings <$> screen (final fs) = groupings <$> screen (final fs').
Proof.
  intros H1 H2.
  assert (He1 : effect1 fs = effect1 fs') by (unfold effect1; by rewrite H1).
  assert (He2 : effect2 fs = effect2 fs') by (unfold effect2; by rewrite H2).
  assert (Ho : outcome fs = outcome fs') by (by rewrite !outcome_eq, He1, He2).
  assert (Hf : figure (final fs) = figure (final fs'))
    by (by rewrite !figure_final, He1, He2).
  split; [done|]. split; [by rewrite Hf|].
  by rewrite !screen_final, Ho, Hf.
Qed.

(** ** Errors *)

Lemma steps_reads path ax title p :
  call_read_csv p ∈ steps path ax title -> p = path.
Proof.
  unfold steps. rewrite !elem_of_cons, elem_of_nil.
  intros [H|[H|[H|[H|[H|[H|[H|[H|[]]]]]]]]]; by simplify_eq.
Qed.

Lemma effect_calls_prefix path ax title c :
  exists n, eff_calls (effect_of path ax title c) = take n (steps path ax title).
Proof.
  destruct c as [[|h rs]|]; cbn [effect_of]; repeat case_match;
    cbn [eff_calls]; first [by eexists | by exists 8%nat].
Qed.

Lemma effect_calls_reads path ax title c p :
  call_read_csv p ∈ eff_calls (effect_of path ax title c) -> p = path.
Proof.
  destruct (effect_calls_prefix path ax title c) as [n ->].
  intros Hin. apply (steps_reads path ax title).
  by apply (subseteq_take n).
Qed.

Lemma effect_calls_read_once path ax title c :
  eff_calls (effect_of path ax title c) = take 1 (steps path ax title)
  \/ exists n, eff_calls (effect_of path ax title c)
               = call_read_csv path :: take n (skipn 1 (steps path ax title)).
Proof.
  destruct c as [[|h rs]|]; cbn [effect_of]; repeat case_match;
    cbn [eff_calls];
    first [by left | right; by exists 1%nat | right; by exists 2%nat
           | right; by exists 3%nat | right; by exists 4%nat
           | right; by exists 7%nat].
Qed.

Lemma bf_read_iff fs :
  call_read_csv bf_csv ∈ calls (final fs) <-> eff_result (effect1 fs) = Ok tt.
Proof.
  rewrite calls_final. split.
  - intros Hin. destruct (eff_result (effect1 fs)) as [[]|e]; [done|].
    rewrite app_nil_r in Hin.
    apply elem_of_cons in Hin as [?|Hin]; [done|].
    apply effect_calls_reads in Hin. discriminate Hin.
  - intros ->. right. apply elem_of_app. right.
    apply elem_of_app. left.
    destruct (effect_calls_read_once bf_csv 1 bf_title (fs !! bf_csv))
      as [H|[n H]]; unfold effect2; rewrite H; by left.
Qed.

Lemma effect_draw_lines path ax title path' ax' title' c a :
  ax_lines (eff_draw (effect_of path ax title c) a)
  = ax_lines (eff_draw (effect_of path' ax' title' c) a).
Proof.
  destruct c as [[|h rs]|]; cbn [effect_of]; repeat case_match; done.
Qed.

Lemma subplot0_final fs :
  subplot 0 (final fs) = ax_lines (eff_draw (effect1 fs) empty_axes).
Proof. unfold subplot. by rewrite figure_final. Qed.

Lemma subplot1_final fs :
  eff_result (effect1 fs) = Ok tt ->
  subplot 1 (final fs) = ax_lines (eff_draw (effect2 fs) empty_axes).
Proof. intros H. unfold subplot. by rewrite figure_final, H. Qed.

(** C8, amended. The lines of the first subplot depend on the first file
    only.  The lines of the second subplot depend on the second file only
    among runs that reach the second file: an error in the first file ends
    the script before the second file is read. *)
Theorem charts_independent :
  (forall fs fs', fs !! sfq_csv = fs' !! sfq_csv ->
                  subplot 0 (final fs) = subplot 0 (final fs')) /\
  (forall fs fs', fs !! bf_csv = fs' !! bf_csv ->
                  call_read_csv bf_csv ∈ calls (final fs) ->
                  call_read_csv bf_csv ∈ calls (final fs') ->
                  subplot 1 (final fs) = subplot 1 (final fs')).
Proof.
  split.
  - intros fs fs' H. rewrite !subplot0_final. unfold effect1. by rewrite H.
  - intros fs fs' H H1%bf_read_iff H2%bf_read_iff.
    rewrite !subplot1_final by done. unfold effect2. by rewrite H.
Qed.

(** C9. The two blocks of the script are one processing applied to
    different arguments: each is [process_file] at its file name, axes
    position and title; hence when the two files hold the same records and
    the script completes, the two subplots carry the same lines and the
    two frames are equal. *)
Theorem same_transformation :
  (forall axes, chart1 axes = process_file sfq_csv 0 sfq_title axes) /\
  (forall axes, chart2 axes = process_file bf_csv 1 bf_title axes) /\
  (forall fs, fs !! sfq_csv = fs !! bf_csv ->
              outcome fs = Ok tt ->
              subplot 0 (final fs) = subplot 1 (final fs) /\
              frames (final fs) !! 0%nat = frames (final fs) !! 1%nat).
Proof.
  split; [done|]. split; [done|].
  intros fs Heq Hok. rewrite outcome_eq in Hok.
  destruct (eff_result (effect1 fs)) as [[]|e] eqn:E1; [|done].
  split.
  - rewrite subplot0_final, subplot1_final by done.
    unfold effect1, effect2. rewrite Heq. apply effect_draw_lines.
  - rewrite frames_final_eq, E1. revert E1 Hok. unfold effect1, effect2.
    rewrite Heq. destruct (fs !! bf_csv) as [[|h rs]|]; cbn [effect_of];
      repeat case_match; done.
Qed.

Lemma unusable_error path c :
  unusable c -> is_Some (expected_error path c).
Proof.
  destruct c as [[|h rs]|]; cbn; try by eexists.
  intros [?|[?|[?|[?|?]]]]; try done; repeat case_decide; done || by eexists.
Qed.

Lemma effect_expected_error path ax title c e :
  expected_error path c = Some e ->
  eff_result (effect_of path ax title c) = Raise e.
Proof.
  destruct c as [[|h rs]|]; cbn [expected_error effect_of].
  - by intros [= <-].
  - repeat case_decide; intros [= <-];
      rewrite ?bool_decide_true, ?bool_decide_false by done; done.
  - by intros [= <-].
Qed.

Lemma screen_raise fs e : outcome fs = Raise e -> screen (final fs) = [].
Proof. intros H. by rewrite screen_final, H. Qed.

Lemma filter_none {A} (P : A -> Prop) `{!forall x, Decision (P x)} (l : list A) :
  (forall x, x ∈ l -> ~ P x) -> filter P l = [].
Proof.
  induction l as [|x l IH]; intros Hall; [done|].
  rewrite filter_cons_False by (apply Hall; by left).
  apply IH. intros y Hy. apply Hall. by right.
Qed.

Lemma steps_read_once path ax title p n :
  (length (filter (fun c => c = call_read_csv p) (take n (steps path ax title)))
   <= 1)%nat.
Proof.
  destruct n as [|n]; [cbn; lia|]. unfold steps. cbn [take].
  assert (Hrest : forall l, l ⊆ skipn 1 (steps path ax title) ->
                            filter (fun c => c = call_read_csv p) l = []).
  { intros l Hl. apply filter_none. intros x Hx%Hl ->.
    cbn in Hx. rewrite !elem_of_cons, elem_of_nil in Hx.
    destruct Hx as [H|[H|[H|[H|[H|[H|[H|[]]]]]]]]; discriminate H. }
  rewrite filter_cons. rewrite (Hrest (take n _)) by apply subseteq_take.
  case_decide; cbn; lia.
Qed.

(** C7. Nothing is handled: a first file that is missing, malformed or
    without one of [t], [name], [goodput] makes the script end with the
    error that file raises, and nothing is shown; so does such a second
    file when the script reaches it (otherwise the script has already
    ended with the first file's error).  Only the two fixed files are ever
    read, each at most once, and the files are left as they are. *)
Theorem errors_propagate fs :
  (unusable (fs !! sfq_csv) ->
     exists e, expected_error sfq_csv (fs !! sfq_csv) = Some e
               /\ outcome fs = Raise e /\ screen (final fs) = []) /\
  (unusable (fs !! bf_csv) ->
     exists e e', expected_error bf_csv (fs !! bf_csv) = Some e
                  /\ outcome fs = Raise e' /\ screen (final fs) = []
                  /\ (call_read_csv bf_csv ∈ calls (final fs) -> e' = e)) /\
  (forall p, call_read_csv p ∈ calls (final fs) -> p = sfq_csv \/ p = bf_csv) /\
  (forall p, length (filter (fun c => c = call_read_csv p) (calls (final fs))) <= 1)%nat /\
  files (final fs) = fs.
Proof.
  split; [|split; [|split; [|split]]].
  - intros [e He]%(unusable_error sfq_csv). exists e.
    assert (Ho : outcome fs = Raise e).
    { rewrite outcome_eq. unfold effect1.
      by rewrite (effect_expected_error _ _ _ _ _ He). }
    eauto using screen_raise.
  - intros [e He]%(unusable_error bf_csv).
    assert (H2 : eff_result (effect2 fs) = Raise e)
      by (by apply effect_expected_error).
    destruct (eff_result (effect1 fs)) as [[]|e1] eqn:E1.
    + exists e, e. assert (Ho : outcome fs = Raise e)
        by (by rewrite outcome_eq, E1).
      eauto using screen_raise.
    + exists e, e1. assert (Ho : outcome fs = Raise e1)
        by (by rewrite outcome_eq, E1).
      repeat split; eauto using screen_raise.
      intros Hin%bf_read_iff. congruence.
  - intros p. rewrite calls_final.
    intros [?|[Hin|Hin]%elem_of_app]%elem_of_cons; [done| |].
    + left. by apply effect_calls_reads in Hin.
    + destruct (eff_result (effect1 fs)) as [[]|e1]; [|by inversion Hin].
      apply elem_of_app in Hin as [Hin|Hin].
      * right. by apply effect_calls_reads in Hin.
      * destruct (eff_result (effect2 fs)); [|by inversion Hin].
        apply elem_of_cons in Hin as [?|Hin]; [done|].
        apply elem_of_cons in Hin as [?|Hin]; [done|by inversion Hin].
  - intros p. rewrite calls_final.
    rewrite filter_cons_False by done. rewrite filter_app, length_app.
    assert (Hone : forall path ax title c,
      p <> path -> filter (fun c => c = call_read_csv p)
                          (eff_calls (effect_of path ax title c)) = []).
    { intros path ax title c Hne.
      destruct (filter _ _) as [|x l] eqn:El; [done|]. exfalso.
      assert (Hx : x ∈ x :: l) by (by left). rewrite <- El in Hx.
      apply list_elem_of_filter in Hx as [-> Hx].
      by apply effect_calls_reads in Hx. }
    assert (Hle : forall path ax title c,
      (length (filter (fun c => c = call_read_csv p)
                      (eff_calls (effect_of path ax title c))) <= 1)%nat).
    { intros path ax title c.
      destruct (effect_calls_prefix path ax title c) as [n ->].
      apply steps_read_once. }
    destruct (decide (p = sfq_csv)) as [->|Hp].
    + pose proof (Hle sfq_csv 0%nat sfq_title (fs !! sfq_csv)) as H1.
      fold (effect1 fs) in H1.
      destruct (eff_result (effect1 fs)) as [[]|e1]; [|cbn; lia].
      rewrite filter_app, length_app. unfold effect2.
      rewrite (Hone bf_csv) by done.
      destruct (eff_result _); rewrite ?filter_cons_False by done; cbn; lia.
    + unfold effect1 at 1. rewrite (Hone sfq_csv) by done.
      destruct (eff_result (effect1 fs)) as [[]|e1]; [|cbn; lia].
      rewrite filter_app, length_app.
      pose proof (Hle bf_csv 1%nat bf_title (fs !! bf_csv)) as H2.
      fold (effect2 fs) in H2.
      destruct (eff_result (effect2 fs));
        rewrite ?filter_cons_False by done; cbn; lia.
  - apply files_final.
Qed.

Lemma effect_error_kind path ax title c e :
  eff_result (effect_of path ax title c) = Raise e ->
  e = FileNotFoundError path \/ e = ParserError path
  \/ (exists k, e = KeyError k) \/ e = TypeError.
Proof.
  destruct c as [[|h rs]|]; cbn [effect_of]; repeat case_match;
    cbn [eff_result]; intros [= <-]; eauto 6.
Qed.

(** What a file without [goodput] does to the processing of that file:
    it is loaded, and the selection raises. *)
Lemma effect_lacks_goodput path ax title h rs :
  "goodput" ∉ h ->
  let e := effect_of path ax title (Some (Csv h rs)) in
  (exists k, eff_result e = Raise (KeyError k)) /\
  (eff_frames e = [frame_of_csv h rs] \/ eff_frames e = [indexed_frame h rs]) /\
  ("t" ∈ h -> "name" ∈ h ->
     eff_result e = Raise (KeyError "goodput")
     /\ eff_calls e = [ call_read_csv path; call_set_index "t";
                        call_groupby "name"; call_getitem "goodput" ]).
Proof.
  intros Hg. cbn [effect_of]. rewrite (bool_decide_false _ Hg). cbn [negb].
  repeat case_bool_decide; cbn [negb eff_result eff_frames eff_calls];
    repeat split; eauto; done.
Qed.

(** C3, amended. A file without the [goodput] column makes the script end
    with an uncaught error and nothing is shown, but not at the load: the
    file is read into a frame, and the error is a [KeyError] raised by a
    later step; when [t] and [name] are present it is the selection of
    [goodput] that raises it. *)
Theorem missing_goodput_fails_at_selection fs path :
  path = sfq_csv \/ path = bf_csv ->
  lacks_column (fs !! path) "goodput" ->
  exists e,
    outcome fs = Raise e /\ screen (final fs) = [] /\
    e <> FileNotFoundError path /\ e <> ParserError path /\
    (call_read_csv path ∈ calls (final fs) ->
       (exists k, e = KeyError k) /\
       (exists f, f ∈ frames (final fs)
                  /\ (f = frame_of_csv (header_of (fs !! path)) (records_of (fs !! path))
                      \/ f = indexed_frame (header_of (fs !! path))
                                           (records_of (fs !! path)))) /\
       (~ lacks_column (fs !! path) "t" -> ~ lacks_column (fs !! path) "name" ->
          e = KeyError "goodput"
          /\ last (calls (final fs)) = Some (call_getitem "goodput"))).
Proof.
  intros Hpath Hlack.
  destruct (fs !! path) as [[|h rs]|] eqn:Ef; try done.
  cbn [lacks_column header_of records_of] in *.
  destruct Hpath as [-> | ->].
  - destruct (effect_lacks_goodput sfq_csv 0 sfq_title h rs Hlack)
      as ([k Hk] & Hfr & Hprec).
    rewrite <- Ef in Hk, Hfr, Hprec. fold (effect1 fs) in Hk, Hfr, Hprec.
    exists (KeyError k).
    assert (Ho : outcome fs = Raise (KeyError k)) by (by rewrite outcome_eq, Hk).
    split; [done|]. split; [by eapply screen_raise|].
    split; [done|]. split; [done|]. intros _.
    split; [by eexists|]. split.
    + rewrite frames_final_eq, Hk, app_nil_r.
      destruct Hfr as [-> | ->]; eexists; (split; [by left|]); eauto.
    + intros Ht Hn. destruct Hprec as [Hk' Hc].
      { by destruct (decide ("t" ∈ h)). }
      { by destruct (decide ("name" ∈ h)). }
      split; [congruence|].
      rewrite calls_final, Hk, Hc. reflexivity.
  - destruct (effect_lacks_goodput bf_csv 1 bf_title h rs Hlack)
      as ([k Hk] & Hfr & Hprec).
    rewrite <- Ef in Hk, Hfr, Hprec. fold (effect2 fs) in Hk, Hfr, Hprec.
    destruct (eff_result (effect1 fs)) as [[]|e1] eqn:E1.
    + exists (KeyError k).
      assert (Ho : outcome fs = Raise (KeyError k))
        by (by rewrite outcome_eq, E1, Hk).
      split; [done|]. split; [by eapply screen_raise|].
      split; [done|]. split; [done|]. intros _.
      split; [by eexists|]. split.
      * rewrite frames_final_eq, E1.
        destruct Hfr as [-> | ->]; eexists;
          (split; [apply elem_of_app; right; by left|]); eauto.
      * intros Ht Hn. destruct Hprec as [Hk' Hc].
        { by destruct (decide ("t" ∈ h)). }
        { by destruct (decide ("name" ∈ h)). }
        split; [congruence|].
        rewrite calls_final, E1, Hk, Hc, app_nil_r.
        rewrite app_comm_cons.
        change [call_read_csv bf_csv; call_set_index "t"; call_groupby "name";
                call_getitem "goodput"]
          with ([call_read_csv bf_csv; call_set_index "t"; call_groupby "name"]
                ++ [call_getitem "goodput"]).
        rewrite app_assoc. apply last_snoc.
    + exists e1.
      assert (Ho : outcome fs = Raise e1) by (by rewrite outcome_eq, E1).
      split; [done|]. split; [by eapply screen_raise|].
      apply effect_error_kind in E1 as Hkind.
      split; [|split].
      * destruct Hkind as [-> | [-> | [[? ->] | ->]]]; done.
      * destruct Hkind as [-> | [-> | [[? ->] | ->]]]; done.
      * intros Hin%bf_read_iff. congruence.
Qed.

(** ** Sample inputs *)

Lemma keeps_frames_groupby df key : keeps_frames (df_groupby df key).
Proof.
  intros [fs fr fg cs sc]. unfold df_groupby. run_step.
  repeat case_match; simplify_eq/=; done.
Qed.

Lemma keeps_frames_getitem g key : keeps_frames (gb_getitem g key).
Proof.
  intros [fs fr fg cs sc]. unfold gb_getitem. run_step.
  repeat case_match; simplify_eq/=; done.
Qed.

Lemma keeps_frames_plot g ax legend : keeps_frames (sgb_plot g ax legend).
Proof.
  intros [fs fr fg cs sc]. unfold sgb_plot. run_step.
  repeat case_match; simplify_eq/=; done.
Qed.

Lemma keeps_frames_xlabel ax s : keeps_frames (ax_set_xlabel ax s).
Proof.
  intros [fs fr fg cs sc]. unfold ax_set_xlabel. run_step.
  repeat case_match; simplify_eq/=; done.
Qed.

Lemma keeps_frames_ylabel ax s : keeps_frames (ax_set_ylabel ax s).
Proof.
  intros [fs fr fg cs sc]. unfold ax_set_ylabel. run_step.
  repeat case_match; simplify_eq/=; done.
Qed.

Lemma keeps_frames_title ax s : keeps_frames (ax_set_title ax s).
Proof.
  intros [fs fr fg cs sc]. unfold ax_set_title. run_step.
  repeat case_match; simplify_eq/=; done.
Qed.

Lemma keeps_frames_show : keeps_frames plt_show.
Proof. by intros [fs fr fg cs sc]. Qed.

Lemma keeps_frames_tight_layout : keeps_frames plt_tight_layout.
Proof. by intros [fs fr fg cs sc]. Qed.

Lemma drop_column_Permutation key cols vs :
  get_column key cols = Some vs -> (key, vs) :: drop_column key cols ≡ₚ cols.
Proof.
  induction cols as [|[c ws] cols IH]; [done|]. cbn.
  destruct (decide (c = key)) as [->|Hne].
  - by intros [= ->].
  - intros H. rewrite Permutation_swap. by rewrite (IH H).
Qed.

Lemma set_index_mutates df key w f w' :
  frames w !! df = Some f ->
  df_set_index df key w = (Ok tt, w') ->
  exists vs, get_column key (columns f) = Some vs
    /\ frames w' = <[df := mkFrame (Some key) vs (drop_column key (columns f))]> (frames w)
    /\ (key, vs) :: drop_column key (columns f) ≡ₚ columns f
    /\ files w' = files w.
Proof.
  destruct w as [fs fr fg cs sc]. cbn [frames]. intros Hf.
  unfold df_set_index. run_step. rewrite Hf. cbn.
  destruct (get_column key (columns f)) as [vs|] eqn:Ec; run_step; [|done].
  intros [= <-]. exists vs. cbn. eauto using drop_column_Permutation.
Qed.

Lemma effect_frames_kind path ax title c f :
  f ∈ eff_frames (effect_of path ax title c) ->
  f = frame_of_csv (header_of c) (records_of c)
  \/ (f = indexed_frame (header_of c) (records_of c)
      /\ ("t", index f) :: columns f
         ≡ₚ columns (frame_of_csv (header_of c) (records_of c))).
Proof.
  destruct c as [[|h rs]|]; cbn [effect_of header_of records_of];
    try (by intros ?%elem_of_nil).
  case_bool_decide as Ht; cbn [negb eff_frames].
  2: { intros ->%list_elem_of_singleton. by left. }
  assert (Hp : ("t", index (indexed_frame h rs)) :: columns (indexed_frame h rs)
               ≡ₚ columns (frame_of_csv h rs)).
  { apply drop_column_Permutation. rewrite get_column_csv.
    by rewrite bool_decide_true. }
  repeat case_match; cbn [eff_frames];
    intros ->%list_elem_of_singleton; by right.
Qed.

(** C4, amended. After the load the only step that changes a DataFrame is
    [set_index], which overwrites the object in place: the [t] column
    leaves the columns and becomes the index, no value is changed or lost.
    Grouping, selection, plotting, labelling and showing leave every
    frame as it is, and no file is ever written. *)
Theorem only_set_index_mutates :
  (forall df key w f w',
     frames w !! df = Some f ->
     df_set_index df key w = (Ok tt, w') ->
     exists vs, get_column key (columns f) = Some vs
       /\ frames w' = <[df := mkFrame (Some key) vs (drop_column key (columns f))]>
                        (frames w)
       /\ (key, vs) :: drop_column key (columns f) ≡ₚ columns f
       /\ files w' = files w) /\
  (forall df key, keeps_frames (df_groupby df key)) /\
  (forall g key, keeps_frames (gb_getitem g key)) /\
  (forall g ax legend, keeps_frames (sgb_plot g ax legend)) /\
  (forall ax s, keeps_frames (ax_set_xlabel ax s)) /\
  (forall ax s, keeps_frames (ax_set_ylabel ax s)) /\
  (forall ax s, keeps_frames (ax_set_title ax s)) /\
  keeps_frames plt_tight_layout /\ keeps_frames plt_show /\
  (forall fs, files (final fs) = fs) /\
  (forall fs f, f ∈ frames (final fs) ->
     exists path, (path = sfq_csv \/ path = bf_csv) /\
       (f = frame_of_csv (header_of (fs !! path)) (records_of (fs !! path))
        \/ (f = indexed_frame (header_of (fs !! path)) (records_of (fs !! path))
            /\ ("t", index f) :: columns f
               ≡ₚ columns (frame_of_csv (header_of (fs !! path))
                                        (records_of (fs !! path)))))).
Proof.
  split; [exact set_index_mutates|].
  split; [exact keeps_frames_groupby|].
  split; [exact keeps_frames_getitem|].
  split; [exact keeps_frames_plot|].
  split; [exact keeps_frames_xlabel|].
  split; [exact keeps_frames_ylabel|].
  split; [exact keeps_frames_title|].
  split; [exact keeps_frames_tight_layout|].
  split; [exact keeps_frames_show|].
  split; [exact files_final|].
  intros fs f. rewrite frames_final_eq.
  intros [Hin|Hin]%elem_of_app.
  - exists sfq_csv. split; [by left|]. by eapply effect_frames_kind.
  - destruct (eff_result (effect1 fs)); [|by inversion Hin].
    exists bf_csv. split; [by right|]. by eapply effect_frames_kind.
Qed.

Example sample_first_subplot :
  subplot 0 (final sample_fs)
  = [ mkLine (SStr "a") [SNum 1; SNum 4] [SNum 20; SNum 21];
      mkLine (SStr "b") [SNum 3; SNum 2] [SNum 10; SNum 11] ].
Proof. vm_compute. reflexivity. Qed.

Example sample_second_subplot :
  line_label <$> subplot 1 (final sample_fs) = [SStr "a"; SStr "b"; SStr "c"].
Proof. vm_compute. reflexivity. Qed.

(** ** The statements on the sample inputs *)

Lemma call_in_dec (c : call) (l : list call) :
  bool_decide (c ∈ l) = true -> c ∈ l.
Proof. apply bool_decide_eq_true_1. Qed.

Lemma call_not_in_dec (c : call) (l : list call) :
  bool_decide (c ∈ l) = false -> c ∉ l.
Proof. apply bool_decide_eq_false_1. Qed.



Lemma rerun_same_groupings_witness :
  sample_fs !! sfq_csv = (<["notes.txt" := Malformed]> sample_fs) !! sfq_csv /\
  sample_fs !! bf_csv = (<["notes.txt" := Malformed]> sample_fs) !! bf_csv /\
  groupings (figure (final sample_fs))
    = groupings (figure (final (<["notes.txt" := Malformed]> sample_fs))).
Proof.
  split; [vm_compute; reflexivity|]. split; [vm_compute; reflexivity|].
  apply (rerun_same_groupings sample_fs (<["notes.txt" := Malformed]> sample_fs));
    vm_compute; reflexivity.
Defined.

Lemma errors_propagate_witness :
  unusable (bf_only_fs !! sfq_csv) /\
  exists e, expected_error sfq_csv (bf_only_fs !! sfq_csv) = Some e
            /\ outcome bf_only_fs = Raise e /\ screen (final bf_only_fs) = [].
Proof.
  split; [left; vm_compute; reflexivity|].
  apply (proj1 (errors_propagate bf_only_fs)). left. vm_compute. reflexivity.
Defined.

Lemma no_goodput_lacks : lacks_column (no_goodput_fs !! sfq_csv) "goodput".
Proof.
  vm_compute. intros H.
  repeat (apply elem_of_cons in H as [H|H]; [discriminate H|]). inversion H.
Defined.

Lemma missing_goodput_fails_at_selection_witness :
  (sfq_csv = sfq_csv \/ sfq_csv = bf_csv) /\
  lacks_column (no_goodput_fs !! sfq_csv) "goodput" /\
  exists e, outcome no_goodput_fs = Raise e /\ screen (final no_goodput_fs) = []
            /\ e <> FileNotFoundError sfq_csv /\ e <> ParserError sfq_csv.
Proof.
  split; [by left|]. split; [exact no_goodput_lacks|].
  destruct (missing_goodput_fails_at_selection no_goodput_fs sfq_csv
              (or_introl eq_refl) no_goodput_lacks) as (e & Ho & Hs & H1 & H2 & _).
  exists e. auto.
Defined.

(** C3, the claim as stated: the script does not stop at the load of the
    file without [goodput]; the load returns a frame and the selection
    raises. *)
Lemma missing_goodput_not_load_failure :
  lacks_column (no_goodput_fs !! sfq_csv) "goodput" /\
  fst (pd_read_csv sfq_csv (stage0 no_goodput_fs)) = Ok 0%nat /\
  outcome no_goodput_fs = Raise (KeyError "goodput") /\
  last (calls (final no_goodput_fs)) = Some (call_getitem "goodput") /\
  ~ fails_at_load sfq_csv no_goodput_fs.
Proof.
  split; [exact no_goodput_lacks|].
  split; [vm_compute; reflexivity|]. split; [vm_compute; reflexivity|].
  split; [vm_compute; reflexivity|].
  intros (e & _ & H). vm_compute in H. discriminate H.
Qed.

Lemma only_set_index_mutates_witness :
  frames (loaded sample_fs) !! 0%nat
    = Some (frame_of_csv ["t"; "name"; "goodput"] sfq_rows) /\
  df_set_index 0%nat "t" (loaded sample_fs)
    = (Ok tt, snd (df_set_index 0%nat "t" (loaded sample_fs))) /\
  exists vs,
    get_column "t" (columns (frame_of_csv ["t"; "name"; "goodput"] sfq_rows)) = Some vs
    /\ frames (snd (df_set_index 0%nat "t" (loaded sample_fs)))
       = <[0%nat := mkFrame (Some "t") vs
                      (drop_column "t"
                         (columns (frame_of_csv ["t"; "name"; "goodput"] sfq_rows)))]>
           (frames (loaded sample_fs))
    /\ ("t", vs) :: drop_column "t"
                      (columns (frame_of_csv ["t"; "name"; "goodput"] sfq_rows))
       ≡ₚ columns (frame_of_csv ["t"; "name"; "goodput"] sfq_rows)
    /\ files (snd (df_set_index 0%nat "t" (loaded sample_fs))) = files (loaded sample_fs).
Proof.
  split; [vm_compute; reflexivity|]. split; [vm_compute; reflexivity|].
  apply (proj1 only_set_index_mutates); vm_compute; reflexivity.
Defined.

(** C4, the claim as stated: the frame the load produced is not the frame
    the later steps work on; [set_index] has overwritten it. *)
Lemma loaded_frame_is_mutated :
  frames (loaded sample_fs) !! 0%nat
    = Some (frame_of_csv ["t"; "name"; "goodput"] sfq_rows) /\
  frames (snd (df_set_index 0%nat "t" (loaded sample_fs))) !! 0%nat
    <> frames (loaded sample_fs) !! 0%nat /\
  frames (final sample_fs) !! 0%nat <> frames (loaded sample_fs) !! 0%nat.
Proof.
  split; [vm_compute; reflexivity|].
  split; intros H; vm_compute in H; discriminate H.
Qed.

Lemma charts_independent_witness :
  sample_fs !! sfq_csv = (<[bf_csv := Malformed]> sample_fs) !! sfq_csv /\
  subplot 0 (final sample_fs) = subplot 0 (final (<[bf_csv := Malformed]> sample_fs)) /\
  sample_fs !! bf_csv = no_goodput_fs !! bf_csv /\
  ~ call_read_csv bf_csv ∈ calls (final no_goodput_fs) /\
  sample_fs !! bf_csv
    = (<[sfq_csv := Csv ["t"; "name"; "goodput"] bf_rows]> sample_fs) !! bf_csv /\
  call_read_csv bf_csv ∈ calls (final sample_fs) /\
  call_read_csv bf_csv
    ∈ calls (final (<[sfq_csv := Csv ["t"; "name"; "goodput"] bf_rows]> sample_fs)) /\
  subplot 1 (final sample_fs)
    = subplot 1 (final (<[sfq_csv := Csv ["t"; "name"; "goodput"] bf_rows]> sample_fs)).
Proof.
  assert (H1 : sample_fs !! sfq_csv = (<[bf_csv := Malformed]> sample_fs) !! sfq_csv)
    by (vm_compute; reflexivity).
  assert (H2 : sample_fs !! bf_csv
               = (<[sfq_csv := Csv ["t"; "name"; "goodput"] bf_rows]> sample_fs) !! bf_csv)
    by (vm_compute; reflexivity).
  assert (H3 : call_read_csv bf_csv ∈ calls (final sample_fs)).
  { apply call_in_dec. vm_compute. reflexivity. }
  assert (H4 : call_read_csv bf_csv
    ∈ calls (final (<[sfq_csv := Csv ["t"; "name"; "goodput"] bf_rows]> sample_fs))).
  { apply call_in_dec. vm_compute. reflexivity. }
  split; [exact H1|].
  split; [exact (proj1 charts_independent _ _ H1)|].
  split; [vm_compute; reflexivity|].
  split; [apply call_not_in_dec; vm_compute; reflexivity|].
  split; [exact H2|]. split; [exact H3|]. split; [exact H4|].
  exact (proj2 charts_independent _ _ H2 H3 H4).
Defined.

(** C8, the claim as stated: with the same second file, the second subplot
    has its three lines when the first file can be charted and none when
    the first file has lost its [goodput] column. *)
Lemma second_subplot_depends_on_first_file :
  no_goodput_fs !! bf_csv = sample_fs !! bf_csv /\
  length (subplot 1 (final sample_fs)) = 3%nat /\
  subplot 1 (final no_goodput_fs) = [] /\
  subplot 1 (final no_goodput_fs) <> subplot 1 (final sample_fs).
Proof.
  split; [vm_compute; reflexivity|]. split; [vm_compute; reflexivity|].
  split; [vm_compute; reflexivity|].
  intros H. vm_compute in H. discriminate H.
Qed.

Lemma same_transformation_witness :
  twin_fs !! sfq_csv = twin_fs !! bf_csv /\
  outcome twin_fs = Ok tt /\
  subplot 0 (final twin_fs) = subplot 1 (final twin_fs) /\
  frames (final twin_fs) !! 0%nat = frames (final twin_fs) !! 1%nat.
Proof.
  split; [vm_compute; reflexivity|]. split; [vm_compute; reflexivity|].
  apply (proj2 (proj2 same_transformation) twin_fs); vm_compute; reflexivity.
Defined.

(** ** Further properties of the run *)

Lemma effect_calls_ok path ax title c :
  eff_result (effect_of path ax title c) = Ok tt ->
  eff_calls (effect_of path ax title c) = steps path ax title.
Proof.
  destruct c as [[|h rs]|]; cbn [effect_of]; repeat case_match; done.
Qed.

Lemma effect_calls_raise path ax title c e :
  eff_result (effect_of path ax title c) = Raise e ->
  exists n, (n <= 5)%nat
            /\ eff_calls (effect_of path ax title c) = take n (steps path ax title).
Proof.
  destruct c as [[|h rs]|]; cbn [effect_of]; repeat case_match;
    cbn [eff_result eff_calls]; intros [= <-];
    first [ by (exists 1%nat; split; [lia|]) | by (exists 2%nat; split; [lia|])
          | by (exists 3%nat; split; [lia|]) | by (exists 4%nat; split; [lia|])
          | by (exists 5%nat; split; [lia|]) ].
Qed.

Lemma full_log_eq :
  full_log = call_subplots 2 1 :: steps sfq_csv 0 sfq_title
             ++ steps bf_csv 1 bf_title ++ [call_tight_layout; call_show].
Proof. reflexivity. Qed.

Lemma take_steps_prefix n path ax title k :
  take n (steps path ax title) `prefix_of` steps path ax title ++ k.
Proof. apply prefix_app_r, prefix_take. Qed.

Lemma steps_no_show path ax title : call_show ∉ steps path ax title.
Proof.
  unfold steps. rewrite !elem_of_cons, elem_of_nil.
  intros [H|[H|[H|[H|[H|[H|[H|[H|[]]]]]]]]]; discriminate H.
Qed.

Lemma log_shape fs :
  calls (final fs) `prefix_of` full_log /\
  (outcome fs = Ok tt <-> calls (final fs) = full_log).
Proof.
  rewrite calls_final, outcome_eq, full_log_eq.
  destruct (eff_result (effect1 fs)) as [[]|e1] eqn:E1.
  - unfold effect1 in *. rewrite (effect_calls_ok _ _ _ _ E1).
    destruct (eff_result (effect2 fs)) as [[]|e2] eqn:E2.
    + unfold effect2 in *. rewrite (effect_calls_ok _ _ _ _ E2). done.
    + unfold effect2 in *.
      destruct (effect_calls_raise _ _ _ _ _ E2) as (n & Hn & ->).
      rewrite app_nil_r. split.
      * apply prefix_cons, prefix_app, take_steps_prefix.
      * split; [done|]. intros H%(f_equal length). exfalso. revert H.
        cbn [length]. rewrite !length_app, length_take. cbn. lia.
  - unfold effect1 in *.
    destruct (effect_calls_raise _ _ _ _ _ E1) as (n & Hn & ->).
    rewrite app_nil_r. split.
    + apply prefix_cons, take_steps_prefix.
    + split; [done|]. intros H%(f_equal length). exfalso. revert H.
      cbn [length]. rewrite !length_app, length_take. cbn. lia.
Qed.

Lemma indexed_frame_by_t c :
  well_formed c = true ->
  indexed_by_t c (indexed_frame (header_of c) (records_of c)).
Proof.
  intros (h & rs & -> & Ht & Hn & Hg & _)%well_formed_inv.
  cbn [header_of records_of]. unfold indexed_by_t, column_of.
  cbn [header_of records_of]. split; [done|]. split; [done|].
  rewrite !get_column_indexed by done. by rewrite !bool_decide_true.
Qed.

Lemma draw_charts c title :
  well_formed c = true ->
  charts c title (draw (chart_lines (header_of c) (records_of c)) title empty_axes).
Proof.
  intros Hwf. unfold charts, draw. cbn [ax_lines ax_xlabel ax_ylabel ax_title empty_axes].
  rewrite app_nil_l. split; [|split; [|done]].
  - rewrite (chart_lines_well_formed c Hwf). apply Forall_forall.
    by intros l (k & -> & _)%list_elem_of_fmap.
  - by apply chart_lines_labels.
Qed.

(** C1. Whatever the files hold, the calls the script makes are an
    initial part of one fixed sequence: create the figure; for the first
    file and then for the second, load the CSV, set [t] as index, group
    by [name], select [goodput], plot on the file's own axes, label x, y
    and title; lay out and show.  The sequence is run to its end exactly
    when the script completes.  On well-formed inputs it completes, and
    then each frame holds its file with [t] as index, each axes carries
    one line per distinct name of its file, every line being the [t] and
    [goodput] values of the records of its name, with the labels and the
    title set, and the one display call shows the figure with these two
    subplots. *)
Theorem steps_in_order fs :
  calls (final fs) `prefix_of` full_log /\
  (outcome fs = Ok tt <-> calls (final fs) = full_log) /\
  (well_formed_inputs fs ->
     outcome fs = Ok tt /\
     calls (final fs) = full_log /\
     exists f1 f2 a1 a2,
       frames (final fs) = [f1; f2] /\
       indexed_by_t (fs !! sfq_csv) f1 /\ indexed_by_t (fs !! bf_csv) f2 /\
       figure (final fs) = [a1; a2] /\
       charts (fs !! sfq_csv)
              "Goodput with Fairness (Stochastic Fairness Queueing)" a1 /\
       charts (fs !! bf_csv) "Goodput with Fairness (Bloom Filter)" a2 /\
       screen (final fs) = [[a1; a2]]).
Proof.
  destruct (log_shape fs) as [Hp Hiff]. split; [done|]. split; [done|].
  intros Hwf. unfold outcome, final in *. rewrite (run_well_formed fs Hwf) in *.
  destruct Hwf as [H1 H2]. cbn [fst snd] in *.
  split; [done|]. split; [by apply Hiff|].
  unfold effect1, effect2.
  rewrite (effect_of_well_formed _ _ _ _ H1), (effect_of_well_formed _ _ _ _ H2).
  eexists _, _, _, _. cbn.
  split; [reflexivity|]. split; [by apply indexed_frame_by_t|].
  split; [by apply indexed_frame_by_t|]. split; [reflexivity|].
  split; [by apply draw_charts|]. split; [by apply draw_charts|]. reflexivity.
Qed.

(** X1. Whatever the files hold, the calls the script makes are an initial
    part of the calls of a complete run, in that order; the log is the
    whole sequence exactly when the script completes; [show] is reached
    only then, and at most one figure is ever put on screen. *)
Theorem log_is_prefix fs :
  calls (final fs) `prefix_of` full_log /\
  (outcome fs = Ok tt <-> calls (final fs) = full_log) /\
  (call_show ∈ calls (final fs) -> outcome fs = Ok tt) /\
  (length (screen (final fs)) <= 1)%nat.
Proof.
  rewrite calls_final, outcome_eq, screen_final, outcome_eq, full_log_eq.
  destruct (eff_result (effect1 fs)) as [[]|e1] eqn:E1.
  - unfold effect1 in *. rewrite (effect_calls_ok _ _ _ _ E1).
    destruct (eff_result (effect2 fs)) as [[]|e2] eqn:E2.
    + unfold effect2 in *. rewrite (effect_calls_ok _ _ _ _ E2).
      repeat split; done.
    + unfold effect2 in *.
      destruct (effect_calls_raise _ _ _ _ _ E2) as (n & Hn & ->).
      rewrite app_nil_r. split; [|split; [|split]].
      * apply prefix_cons, prefix_app, take_steps_prefix.
      * split; [done|]. intros H%(f_equal length). exfalso. revert H.
        cbn [length]. rewrite !length_app, length_take. cbn. lia.
      * intros [?|[Hin|Hin]%elem_of_app]%elem_of_cons; [done| |].
        -- by apply steps_no_show in Hin.
        -- apply (subseteq_take n) in Hin. by apply steps_no_show in Hin.
      * cbn. lia.
  - unfold effect1 in *.
    destruct (effect_calls_raise _ _ _ _ _ E1) as (n & Hn & ->).
    rewrite app_nil_r. split; [|split; [|split]].
    + apply prefix_cons, take_steps_prefix.
    + split; [done|]. intros H%(f_equal length). exfalso. revert H.
      cbn [length]. rewrite !length_app, length_take. cbn. lia.
    + intros [?|Hin]%elem_of_cons; [done|].
      apply (subseteq_take n) in Hin. by apply steps_no_show in Hin.
    + cbn. lia.
Qed.

Lemma effect_ok_usable path ax title c :
  eff_result (effect_of path ax title c) = Ok tt -> ~ unusable c.
Proof.
  intros Hok [->|[->|[H|[H|H]]]]; try done;
    destruct c as [[|h rs]|]; try done; cbn [lacks_column effect_of] in *;
    repeat case_bool_decide; done.
Qed.

(** X3. The script completes only if both files are there, are accepted
    by the tokenizer and have the columns [t], [name] and [goodput]. *)
Theorem completes_only_if_usable fs :
  outcome fs = Ok tt ->
  ~ unusable (fs !! sfq_csv) /\ ~ unusable (fs !! bf_csv).
Proof.
  rewrite outcome_eq.
  destruct (eff_result (effect1 fs)) as [[]|e1] eqn:E1; [|done].
  intros E2. split; by eapply effect_ok_usable.
Qed.

Lemma chartable_inv c :
  chartable c = true ->
  exists h rs, c = Some (Csv h rs) /\ tidy c = true
    /\ "t" ∈ h /\ "name" ∈ h /\ "goodput" ∈ h
    /\ is_numeric_dtype (field h "goodput" <$> rs) = true.
Proof.
  destruct c as [[|h rs]|]; try discriminate. cbn [chartable].
  rewrite !andb_true_iff, !bool_decide_eq_true.
  intros [[[[Htidy Ht] Hn] Hg] Hnum]. exists h, rs.
  repeat split; try done. by apply numeric_of_tidy; [|
    rewrite forallb_forall; intros v (r & -> & Hr)%list_elem_of_In%list_elem_of_fmap;
    eauto using tidy_field].
Qed.

Lemma effect_of_chartable path ax title c :
  chartable c = true ->
  effect_of path ax title c
  = mkEffect (Ok tt) [indexed_frame (header_of c) (records_of c)]
             (steps path ax title)
             (draw (chart_lines (header_of c) (records_of c)) title).
Proof.
  intros (h & rs & -> & _ & Ht & Hn & Hg & Hnum)%chartable_inv.
  cbn [effect_of header_of records_of].
  rewrite !bool_decide_true by done. cbn [negb]. by rewrite Hnum.
Qed.

(** X4. Two tidy tables with the three columns and no text in [goodput]
    are enough for the script to complete, with the full sequence of calls
    and the figure on screen: [t] may hold text and names may be
    missing. *)
Theorem chartable_completes fs :
  chartable (fs !! sfq_csv) = true ->
  chartable (fs !! bf_csv) = true ->
  outcome fs = Ok tt /\
  calls (final fs) = full_log /\
  screen (final fs) = [figure (final fs)].
Proof.
  intros H1 H2.
  assert (Ho : outcome fs = Ok tt).
  { rewrite outcome_eq. unfold effect1, effect2.
    by rewrite (effect_of_chartable _ _ _ _ H1), (effect_of_chartable _ _ _ _ H2). }
  split; [done|]. split.
  - rewrite calls_final. unfold effect1, effect2.
    by rewrite (effect_of_chartable _ _ _ _ H1), (effect_of_chartable _ _ _ _ H2).
  - by rewrite screen_final, Ho.
Qed.

Lemma effect_draw_ok path ax title c :
  eff_result (effect_of path ax title c) = Ok tt ->
  eff_draw (effect_of path ax title c)
  = draw (chart_lines (header_of c) (records_of c)) title.
Proof.
  destruct c as [[|h rs]|]; cbn [effect_of]; repeat case_match; done.
Qed.

Lemma effect_draw_raise path ax title c e a :
  eff_result (effect_of path ax title c) = Raise e ->
  eff_draw (effect_of path ax title c) a = a.
Proof.
  destruct c as [[|h rs]|]; cbn [effect_of]; repeat case_match; done.
Qed.

(** X5. When the script completes the figure has two axes, both labelled
    "Time (s)" and "Goodput (tps)", titled after the two disciplines, and
    each has its legend exactly when it has at least one line. *)
Theorem labels_on_completion fs :
  outcome fs = Ok tt ->
  exists a1 a2,
    figure (final fs) = [a1; a2] /\
    ax_xlabel a1 = "Time (s)" /\ ax_ylabel a1 = "Goodput (tps)" /\
    ax_title a1 = "Goodput with Fairness (Stochastic Fairness Queueing)" /\
    ax_xlabel a2 = "Time (s)" /\ ax_ylabel a2 = "Goodput (tps)" /\
    ax_title a2 = "Goodput with Fairness (Bloom Filter)" /\
    (ax_legend a1 = true <-> ax_lines a1 <> []) /\
    (ax_legend a2 = true <-> ax_lines a2 <> []).
Proof.
  rewrite outcome_eq, figure_final.
  destruct (eff_result (effect1 fs)) as [[]|e1] eqn:E1; [|done].
  intros E2. unfold effect1, effect2 in *.
  rewrite (effect_draw_ok _ _ _ _ E1), (effect_draw_ok _ _ _ _ E2).
  eexists _, _. split; [reflexivity|]. cbn.
  repeat split; try done; destruct (chart_lines _ _); done.
Qed.

(** ** Further properties of the lines *)

Lemma group_lines_general {R : Type} (key t v : R -> scalar) (rs : list R) :
  group_lines (key <$> rs) (t <$> rs) (v <$> rs)
  = (fun k => series_line (is_numeric_dtype (t <$> rs)) k
                ((fun r => (t r, v r)) <$> filter (fun r => key r = k) rs))
    <$> group_keys (key <$> rs).
Proof.
  unfold group_lines. apply list_fmap_ext. intros _ k _.
  by rewrite group_series_fmap.
Qed.

Lemma chart_lines_general h rs :
  chart_lines h rs
  = (fun k => series_line (is_numeric_dtype (field h "t" <$> rs)) k
                ((fun r => (field h "t" r, field h "goodput" r))
                   <$> filter (fun r => field h "name" r = k) rs))
    <$> group_keys (field h "name" <$> rs).
Proof. apply group_lines_general. Qed.

(** The lines of a subplot are the chart lines of its file, or none. *)
Lemma subplot_cases fs i :
  subplot i (final fs) = []
  \/ (i = 0%nat /\ eff_result (effect1 fs) = Ok tt /\
      subplot i (final fs)
      = chart_lines (header_of (fs !! sfq_csv)) (records_of (fs !! sfq_csv)))
  \/ (i = 1%nat /\ outcome fs = Ok tt /\
      subplot i (final fs)
      = chart_lines (header_of (fs !! bf_csv)) (records_of (fs !! bf_csv))).
Proof.
  unfold subplot. rewrite figure_final, outcome_eq.
  destruct i as [|[|i]]; cbn; [| |by left].
  - destruct (eff_result (effect1 fs)) as [[]|e1] eqn:E1.
    + right. left. unfold effect1 in *.
      by rewrite (effect_draw_ok _ _ _ _ E1).
    + left. unfold effect1 in *. by rewrite (effect_draw_raise _ _ _ _ _ _ E1).
  - destruct (eff_result (effect1 fs)) as [[]|e1] eqn:E1; [|by left].
    destruct (eff_result (effect2 fs)) as [[]|e2] eqn:E2.
    + right. right. unfold effect2 in *.
      by rewrite (effect_draw_ok _ _ _ _ E2).
    + left. unfold effect2 in *. by rewrite (effect_draw_raise _ _ _ _ _ _ E2).
Qed.

Lemma subplot_chart_lines fs i l :
  l ∈ subplot i (final fs) ->
  exists h rs, l ∈ chart_lines h rs.
Proof.
  destruct (subplot_cases fs i) as [->|[(_ & _ & ->)|(_ & _ & ->)]];
    [by intros ?%elem_of_nil|eauto|eauto].
Qed.

(** X6. Every line on the figure, for any input, has as many x values as
    y values, has at least one point, and is labelled with a name that is
    not missing. *)
Theorem lines_are_sound fs i l :
  l ∈ subplot i (final fs) ->
  length (line_xdata l) = length (line_ydata l) /\
  (0 < length (line_ydata l))%nat /\
  line_label l <> SNaN.
Proof.
  intros (h & rs & Hl)%subplot_chart_lines.
  rewrite chart_lines_general in Hl.
  apply list_elem_of_fmap in Hl as (k & -> & Hk).
  apply group_keys_elem_of in Hk as [Hna Hk].
  apply list_elem_of_fmap in Hk as (r & -> & Hr).
  unfold series_line. cbn [line_xdata line_ydata line_label].
  split; [|split].
  - destruct (is_numeric_dtype _); by rewrite !length_fmap, ?length_seq.
  - rewrite !length_fmap.
    assert (Hin : r ∈ filter (fun r' => field h "name" r' = field h "name" r) rs)
      by (by apply list_elem_of_filter).
    destruct (filter _ rs); [by inversion Hin|cbn; lia].
  - intros Heq. by rewrite Heq in Hna.
Qed.

Lemma scalar_le_total : Total scalar_le.
Proof.
  intros [x|x|] [y|y|]; unfold scalar_le; cbn; auto.
  - destruct (Z.leb_spec x y), (Z.leb_spec y x); cbn; auto; lia.
  - destruct (String.leb_total x y) as [->| ->]; cbn; auto.
Qed.

Lemma chart_lines_label h rs :
  line_label <$> chart_lines h rs = group_keys (field h "name" <$> rs).
Proof.
  rewrite chart_lines_general, <- list_fmap_compose.
  rewrite (list_fmap_ext _ id (group_keys (field h "name" <$> rs)))
    by (intros; reflexivity).
  apply list_fmap_id.
Qed.

(** X7. On each subplot the lines come in ascending order of their names
    (numbers before text), and no name labels two lines. *)
Theorem lines_sorted_by_name fs i :
  Sorted scalar_le (line_label <$> subplot i (final fs)) /\
  NoDup (line_label <$> subplot i (final fs)).
Proof.
  destruct (subplot_cases fs i) as [->|[(_ & _ & ->)|(_ & _ & ->)]].
  - split; constructor.
  - rewrite chart_lines_label. split; [|apply group_keys_NoDup].
    unfold group_keys.
    apply (@Sorted_merge_sort _ scalar_le _ scalar_le_total).
  - rewrite chart_lines_label. split; [|apply group_keys_NoDup].
    unfold group_keys.
    apply (@Sorted_merge_sort _ scalar_le _ scalar_le_total).
Qed.

Lemma chart_lines_y c :
  plotted_y (chart_lines (header_of c) (records_of c))
  ≡ₚ field (header_of c) "goodput" <$> named_records c.
Proof.
  rewrite chart_lines_general. unfold plotted_y, named_records.
  rewrite <- list_fmap_compose.
  set (key := field (header_of c) "name").
  set (v := field (header_of c) "goodput").
  set (rs := records_of c).
  set (rs' := filter (fun r => Is_true (notna (key r))) rs).
  rewrite (list_fmap_ext _ (grouped key v rs') (group_keys (key <$> rs))).
  - apply groups_partition; [apply group_keys_NoDup|].
    intros r [Hna Hr]%list_elem_of_filter. apply group_keys_elem_of.
    split; [done|]. apply list_elem_of_fmap. eauto.
  - intros _ k Hk%list_elem_of_lookup_2.
    apply group_keys_elem_of in Hk as [Hna _].
    unfold grouped, series_line, rs'. cbn.
    rewrite <- list_fmap_compose. cbn. f_equal.
    rewrite list_filter_filter. apply list_filter_iff.
    intros r. split; [|tauto]. intros Heq. split; [done|]. by rewrite Heq.
Qed.

(** X8. Records without a name are left out of the chart: when the
    script completes on two tidy tables, the y values plotted on a subplot
    are the [goodput] values of the records of its file that carry a
    name, and only those. *)
Theorem unnamed_records_dropped fs :
  tidy (fs !! sfq_csv) = true -> tidy (fs !! bf_csv) = true ->
  outcome fs = Ok tt ->
  plotted_y (subplot 0 (final fs))
    ≡ₚ field (header_of (fs !! sfq_csv)) "goodput" <$> named_records (fs !! sfq_csv) /\
  plotted_y (subplot 1 (final fs))
    ≡ₚ field (header_of (fs !! bf_csv)) "goodput" <$> named_records (fs !! bf_csv).
Proof.
  intros _ _ Hok. pose proof Hok as Hok'. rewrite outcome_eq in Hok'.
  destruct (eff_result (effect1 fs)) as [[]|e1] eqn:E1; [|done].
  rewrite subplot0_final, subplot1_final by done. unfold effect1, effect2 in *.
  rewrite (effect_draw_ok _ _ _ _ E1), (effect_draw_ok _ _ _ _ Hok'). cbn.
  split; apply chart_lines_y.
Qed.

Lemma chart_lines_positions h rs l :
  is_numeric_dtype (field h "t" <$> rs) = false ->
  l ∈ chart_lines h rs ->
  line_xdata l = positions (length (line_ydata l)).
Proof.
  intros Hnum. rewrite chart_lines_general, Hnum.
  intros (k & -> & _)%list_elem_of_fmap.
  unfold series_line, positions. cbn. by rewrite !length_fmap.
Qed.

(** X9. When the [t] column of a tidy table holds text, the lines of its
    subplot are not drawn against [t]: the x values of every line there
    are the positions 0, 1, ... of its points. *)
Theorem text_times_plot_as_positions fs :
  (tidy (fs !! sfq_csv) = true ->
   (exists v, v ∈ column_of (fs !! sfq_csv) "t" /\ is_text v = true) ->
   forall l, l ∈ subplot 0 (final fs) ->
             line_xdata l = positions (length (line_ydata l))) /\
  (tidy (fs !! bf_csv) = true ->
   (exists v, v ∈ column_of (fs !! bf_csv) "t" /\ is_text v = true) ->
   forall l, l ∈ subplot 1 (final fs) ->
             line_xdata l = positions (length (line_ydata l))).
Proof.
  split; intros _ (v & Hv & Htext) l Hl.
  - destruct (subplot_cases fs 0) as [E|[(_ & _ & E)|(Hi & _)]];
      [rewrite E in Hl; by inversion Hl| |discriminate Hi].
    rewrite E in Hl. eapply chart_lines_positions; [|exact Hl].
    eapply text_not_numeric; [exact Hv|]. by destruct v.
  - destruct (subplot_cases fs 1) as [E|[(Hi & _)|(_ & _ & E)]];
      [rewrite E in Hl; by inversion Hl|discriminate Hi|].
    rewrite E in Hl. eapply chart_lines_positions; [|exact Hl].
    eapply text_not_numeric; [exact Hv|]. by destruct v.
Qed.





Lemma chart_lines_nonempty c :
  named_records c <> [] -> chart_lines (header_of c) (records_of c) <> [].
Proof.
  intros Hne Hnil. apply Hne. unfold named_records.
  apply filter_none. intros r Hr Hna.
  assert (Hk : field (header_of c) "name" r
               ∈ group_keys (field (header_of c) "name" <$> records_of c)).
  { apply group_keys_elem_of. split; [done|]. apply list_elem_of_fmap. eauto. }
  rewrite <- chart_lines_label, Hnil in Hk. by inversion Hk.
Qed.

Lemma effect_text_goodput path ax title c :
  text_goodput c ->
  effect_of path ax title c
  = mkEffect (Raise TypeError) [indexed_frame (header_of c) (records_of c)]
             (take 5 (steps path ax title)) id.
Proof.
  intros (_ & Hus & Hne & Htext).
  assert (Hnum : is_numeric_dtype (column_of c "goodput") = false).
  { destruct (named_records c) as [|r rs'] eqn:Er; [done|].
    apply Forall_cons in Htext as [Hr _].
    assert (Hin : r ∈ records_of c).
    { assert (Hin : r ∈ named_records c) by (rewrite Er; by left).
      by apply list_elem_of_filter in Hin as [_ ?]. }
    eapply text_not_numeric; [|exact Hr].
    apply list_elem_of_fmap. eauto. }
  apply chart_lines_nonempty in Hne.
  destruct c as [[|h rs]|].
  - exfalso. apply Hus. right. by left.
  - unfold column_of in Hnum. cbn [header_of records_of effect_of] in *.
    assert (Ht : "t" ∈ h).
    { destruct (decide ("t" ∈ h)); [done|]. exfalso. apply Hus. do 2 right. by left. }
    assert (Hn : "name" ∈ h).
    { destruct (decide ("name" ∈ h)); [done|]. exfalso. apply Hus. do 3 right. by left. }
    assert (Hg : "goodput" ∈ h).
    { destruct (decide ("goodput" ∈ h)); [done|]. exfalso. apply Hus. do 4 right. done. }
    rewrite !bool_decide_true by done. cbn [negb]. rewrite Hnum.
    by rewrite bool_decide_false.
  - exfalso. apply Hus. by left.
Qed.

(** X10. When the records with a name of a tidy table give their
    [goodput] as text, the plot call raises [TypeError]: the script ends
    there, nothing is drawn on that subplot and nothing is shown (for the
    second file, provided the script reaches it). *)
Theorem text_goodput_raises fs :
  (text_goodput (fs !! sfq_csv) ->
     outcome fs = Raise TypeError /\ screen (final fs) = [] /\
     last (calls (final fs)) = Some (call_plot 0) /\
     subplot 0 (final fs) = []) /\
  (text_goodput (fs !! bf_csv) -> call_read_csv bf_csv ∈ calls (final fs) ->
     outcome fs = Raise TypeError /\ screen (final fs) = [] /\
     last (calls (final fs)) = Some (call_plot 1) /\
     subplot 1 (final fs) = []).
Proof.
  split.
  - intros H%(effect_text_goodput sfq_csv 0 sfq_title). fold (effect1 fs) in H.
    assert (Ho : outcome fs = Raise TypeError) by (by rewrite outcome_eq, H).
    split; [done|]. split; [by eapply screen_raise|]. split.
    + by rewrite calls_final, H.
    + by rewrite subplot0_final, H.
  - intros H%(effect_text_goodput bf_csv 1 bf_title) E1%bf_read_iff.
    fold (effect2 fs) in H.
    assert (Ho : outcome fs = Raise TypeError) by (by rewrite outcome_eq, E1, H).
    split; [done|]. split; [by eapply screen_raise|]. split.
    + rewrite calls_final, E1, H. unfold effect1 in *.
      rewrite (effect_calls_ok _ _ _ _ E1). reflexivity.
    + by rewrite subplot1_final, H.
Qed.

(** ** Further properties of the frames *)

Lemma frame_of_csv_rectangular h rs : rectangular (length rs) (frame_of_csv h rs).
Proof.
  unfold rectangular, frame_of_csv. cbn [index columns]. split.
  - by rewrite length_fmap, length_seq.
  - apply Forall_forall. intros [c vs] Hin.
    apply elem_of_lookup_imap in Hin as (j & c' & Heq & _).
    simplify_eq/=. apply length_fmap.
Qed.

Lemma drop_column_Forall (P : string * list scalar -> Prop) key cols :
  Forall P cols -> Forall P (drop_column key cols).
Proof.
  induction 1 as [|[c vs] cols Hc Hcols IH]; [done|]. cbn.
  destruct (decide (c = key)); [done|by constructor].
Qed.

Lemma indexed_frame_rectangular h rs : rectangular (length rs) (indexed_frame h rs).
Proof.
  unfold rectangular, indexed_frame. cbn [index columns]. split.
  - by rewrite length_fmap.
  - apply drop_column_Forall, frame_of_csv_rectangular.
Qed.

(** X11. Every frame on the heap at the end of a run is rectangular: its
    index and each of its columns have one entry per record of its
    file. *)
Theorem frames_are_rectangular fs f :
  f ∈ frames (final fs) ->
  rectangular (length (records_of (fs !! sfq_csv))) f
  \/ rectangular (length (records_of (fs !! bf_csv))) f.
Proof.
  rewrite frames_final_eq. intros [Hin|Hin]%elem_of_app.
  - left. apply effect_frames_kind in Hin as [->|[-> _]];
      [apply frame_of_csv_rectangular|apply indexed_frame_rectangular].
  - right. destruct (eff_result (effect1 fs)); [|by inversion Hin].
    apply effect_frames_kind in Hin as [->|[-> _]];
      [apply frame_of_csv_rectangular|apply indexed_frame_rectangular].
Qed.

Lemma imap_labels (g : nat -> list scalar) (h : list string) :
  (imap (fun j c => (c, g j)) h).*1 = h.
Proof.
  revert g. induction h as [|c h IH]; intros g; [done|]. cbn.
  f_equal. apply (IH (g ∘ S)).
Qed.

Lemma frame_of_csv_labels h rs : (columns (frame_of_csv h rs)).*1 = h.
Proof. apply (imap_labels (fun j => field_at j <$> rs)). Qed.

Lemma get_column_None key cols : key ∉ cols.*1 -> get_column key cols = None.
Proof.
  induction cols as [|[c vs] cols IH]; [done|]. cbn.
  intros [Hne Hnin]%not_elem_of_cons.
  destruct (decide (c = key)); [done|]. by apply IH.
Qed.

Lemma get_column_dropped key cols :
  NoDup cols.*1 -> get_column key (drop_column key cols) = None.
Proof.
  induction cols as [|[c vs] cols IH]; [done|]. cbn.
  intros [Hnin Hnd]%NoDup_cons.
  destruct (decide (c = key)) as [->|Hne].
  - by apply get_column_None.
  - cbn. destruct (decide (c = key)); [done|]. by apply IH.
Qed.

Lemma frames_ok fs :
  outcome fs = Ok tt ->
  frames (final fs)
  = [ indexed_frame (header_of (fs !! sfq_csv)) (records_of (fs !! sfq_csv));
      indexed_frame (header_of (fs !! bf_csv)) (records_of (fs !! bf_csv)) ].
Proof.
  rewrite outcome_eq, frames_final_eq.
  destruct (eff_result (effect1 fs)) as [[]|e1] eqn:E1; [|done].
  intros E2. revert E1 E2. unfold effect1, effect2.
  destruct (fs !! sfq_csv) as [[|h1 rs1]|], (fs !! bf_csv) as [[|h2 rs2]|];
    cbn [effect_of]; repeat case_match; done.
Qed.

Lemma tidy_NoDup c : tidy c = true -> NoDup (header_of c).
Proof.
  destruct c as [[|h rs]|]; try discriminate. cbn [tidy header_of].
  rewrite !andb_true_iff, bool_decide_eq_true. tauto.
Qed.

(** X12. After a complete run on two tidy tables every column other than
    [t] can be read from the frame of its file, with the values of the
    file in file order; a label that is not in the header reads nothing,
    and neither does [t], which [set_index] has taken out of the
    columns. *)
Theorem columns_after_set_index fs :
  tidy (fs !! sfq_csv) = true -> tidy (fs !! bf_csv) = true ->
  outcome fs = Ok tt ->
  exists f1 f2,
    frames (final fs) = [f1; f2] /\
    (forall key, key <> "t" ->
       get_column key (columns f1)
       = if bool_decide (key ∈ header_of (fs !! sfq_csv))
         then Some (column_of (fs !! sfq_csv) key) else None) /\
    (forall key, key <> "t" ->
       get_column key (columns f2)
       = if bool_decide (key ∈ header_of (fs !! bf_csv))
         then Some (column_of (fs !! bf_csv) key) else None) /\
    get_column "t" (columns f1) = None /\
    get_column "t" (columns f2) = None.
Proof.
  intros Hd1%tidy_NoDup Hd2%tidy_NoDup Hok.
  rewrite (frames_ok fs Hok). eexists _, _.
  split; [reflexivity|].
  split; [intros key Hne; by apply get_column_indexed|].
  split; [intros key Hne; by apply get_column_indexed|].
  split; unfold indexed_frame; cbn [columns];
    apply get_column_dropped; by rewrite frame_of_csv_labels.
Qed.

(** X13. Each block of the script works on its own objects: run on any
    world with a two-axes figure, it only adds to the heap of frames
    (frames already there are kept, so the in-place [set_index] of one
    block never reaches the frame of the other), leaves the other axes,
    the files and the screen as they are. *)
Theorem blocks_touch_their_own w :
  length (figure w) = 2%nat ->
  (let w' := snd (chart1 [0; 1]%nat w) in
   frames w `prefix_of` frames w' /\ figure w' !! 1%nat = figure w !! 1%nat
   /\ length (figure w') = 2%nat
   /\ files w' = files w /\ screen w' = screen w) /\
  (let w' := snd (chart2 [0; 1]%nat w) in
   frames w `prefix_of` frames w' /\ figure w' !! 0%nat = figure w !! 0%nat
   /\ length (figure w') = 2%nat
   /\ files w' = files w /\ screen w' = screen w).
Proof.
  intros Hlen.
  assert (H0 : is_Some (figure w !! 0%nat)) by (apply lookup_lt_is_Some; lia).
  assert (H1 : is_Some (figure w !! 1%nat)) by (apply lookup_lt_is_Some; lia).
  rewrite chart1_process, chart2_process.
  rewrite (process_file_effect sfq_csv 0 0 sfq_title [0; 1]%nat w) by done.
  rewrite (process_file_effect bf_csv 1 1 bf_title [0; 1]%nat w) by done.
  cbn. rewrite !length_alter, !list_lookup_alter_ne by done.
  repeat split; try done; apply prefix_app_r; done.
Qed.

(** X14. When the first file is a tidy table that can be charted and the
    second cannot be used, the first subplot has been drawn and labelled
    in memory when the error ends the script, the second has no line, and
    nothing is shown. *)
Theorem first_chart_drawn_not_shown fs :
  chartable (fs !! sfq_csv) = true ->
  unusable (fs !! bf_csv) ->
  subplot 0 (final fs)
    = chart_lines (header_of (fs !! sfq_csv)) (records_of (fs !! sfq_csv)) /\
  (exists a2, figure (final fs)
              = [ draw (chart_lines (header_of (fs !! sfq_csv))
                                    (records_of (fs !! sfq_csv))) sfq_title empty_axes;
                  a2 ] /\ ax_lines a2 = []) /\
  screen (final fs) = [] /\
  exists e, outcome fs = Raise e.
Proof.
  intros H1 [e He]%(unusable_error bf_csv).
  assert (E2 : eff_result (effect2 fs) = Raise e)
    by (by apply effect_expected_error).
  assert (E1 := effect_of_chartable sfq_csv 0 sfq_title _ H1).
  fold (effect1 fs) in E1.
  assert (Ho : outcome fs = Raise e) by (by rewrite outcome_eq, E1, E2).
  split; [by rewrite subplot0_final, E1|]. split.
  - rewrite figure_final, E1. cbn. eexists. split; [reflexivity|].
    unfold effect2 in *. by rewrite (effect_draw_raise _ _ _ _ _ _ E2).
  - split; [by eapply screen_raise|by eexists].
Qed.

(** ** The further properties on the sample inputs *)

Lemma usable_csv h rs :
  "t" ∈ h -> "name" ∈ h -> "goodput" ∈ h -> ~ unusable (Some (Csv h rs)).
Proof. intros Ht Hn Hg [?|[?|[?|[?|?]]]]; done. Qed.

Lemma completes_only_if_usable_witness :
  outcome sample_fs = Ok tt /\
  ~ unusable (sample_fs !! sfq_csv) /\ ~ unusable (sample_fs !! bf_csv).
Proof.
  split; [vm_compute; reflexivity|].
  apply (completes_only_if_usable sample_fs). vm_compute. reflexivity.
Defined.

Lemma chartable_completes_witness :
  chartable (text_times_fs !! sfq_csv) = true /\
  chartable (text_times_fs !! bf_csv) = true /\
  outcome text_times_fs = Ok tt /\
  calls (final text_times_fs) = full_log /\
  screen (final text_times_fs) = [figure (final text_times_fs)].
Proof.
  split; [vm_compute; reflexivity|]. split; [vm_compute; reflexivity|].
  apply (chartable_completes text_times_fs); vm_compute; reflexivity.
Defined.

Lemma labels_on_completion_witness :
  outcome sample_fs = Ok tt /\
  exists a1 a2,
    figure (final sample_fs) = [a1; a2] /\
    ax_xlabel a1 = "Time (s)" /\ ax_ylabel a1 = "Goodput (tps)" /\
    ax_title a1 = "Goodput with Fairness (Stochastic Fairness Queueing)" /\
    ax_xlabel a2 = "Time (s)" /\ ax_ylabel a2 = "Goodput (tps)" /\
    ax_title a2 = "Goodput with Fairness (Bloom Filter)" /\
    (ax_legend a1 = true <-> ax_lines a1 <> []) /\
    (ax_legend a2 = true <-> ax_lines a2 <> []).
Proof.
  split; [vm_compute; reflexivity|].
  apply (labels_on_completion sample_fs). vm_compute. reflexivity.
Defined.

Lemma lines_are_sound_witness :
  mkLine (SStr "b") [SNum 3; SNum 2] [SNum 10; SNum 11]
    ∈ subplot 0 (final sample_fs) /\
  length [SNum 3; SNum 2] = length [SNum 10; SNum 11] /\
  (0 < length [SNum 10; SNum 11])%nat /\
  SStr "b" <> SNaN.
Proof.
  assert (H : mkLine (SStr "b") [SNum 3; SNum 2] [SNum 10; SNum 11]
                ∈ subplot 0 (final sample_fs)).
  { vm_compute. right. left. }
  split; [exact H|].
  exact (lines_are_sound sample_fs 0
           (mkLine (SStr "b") [SNum 3; SNum 2] [SNum 10; SNum 11]) H).
Defined.

Lemma unnamed_records_dropped_witness :
  tidy (text_times_fs !! sfq_csv) = true /\
  tidy (text_times_fs !! bf_csv) = true /\
  outcome text_times_fs = Ok tt /\
  plotted_y (subplot 0 (final text_times_fs))
    ≡ₚ field (header_of (text_times_fs !! sfq_csv)) "goodput"
         <$> named_records (text_times_fs !! sfq_csv) /\
  field (header_of (text_times_fs !! sfq_csv)) "goodput"
    <$> named_records (text_times_fs !! sfq_csv) = [SNum 1; SNum 3].
Proof.
  split; [vm_compute; reflexivity|]. split; [vm_compute; reflexivity|].
  split; [vm_compute; reflexivity|]. split; [|vm_compute; reflexivity].
  apply (unnamed_records_dropped text_times_fs); vm_compute; reflexivity.
Defined.

Lemma text_times_plot_as_positions_witness :
  tidy (text_times_fs !! sfq_csv) = true /\
  SStr "early" ∈ column_of (text_times_fs !! sfq_csv) "t" /\
  mkLine (SStr "a") [SNum 0; SNum 1] [SNum 1; SNum 3]
    ∈ subplot 0 (final text_times_fs) /\
  [SNum 0; SNum 1] = positions (length [SNum 1; SNum 3]).
Proof.
  assert (H1 : tidy (text_times_fs !! sfq_csv) = true) by (vm_compute; reflexivity).
  assert (H2 : SStr "early" ∈ column_of (text_times_fs !! sfq_csv) "t")
    by (vm_compute; left).
  assert (H3 : mkLine (SStr "a") [SNum 0; SNum 1] [SNum 1; SNum 3]
                 ∈ subplot 0 (final text_times_fs)) by (vm_compute; left).
  split; [exact H1|]. split; [exact H2|]. split; [exact H3|].
  exact (proj1 (text_times_plot_as_positions text_times_fs) H1
           (ex_intro _ (SStr "early") (conj H2 eq_refl)) _ H3).
Defined.

Lemma text_goodput_fs_text : text_goodput (text_goodput_fs !! sfq_csv).
Proof.
  assert (E : text_goodput_fs !! sfq_csv
              = Some (Csv ["t"; "name"; "goodput"]
                          [ [SNum 0; SStr "a"; SStr "fast"];
                            [SNum 1; SStr "b"; SStr "slow"] ]))
    by (vm_compute; reflexivity).
  rewrite E. split; [|split; [|split]].
  - vm_compute. reflexivity.
  - apply usable_csv; rewrite !elem_of_cons; auto.
  - vm_compute. discriminate.
  - vm_compute. repeat constructor.
Defined.

Lemma text_goodput_raises_witness :
  text_goodput (text_goodput_fs !! sfq_csv) /\
  outcome text_goodput_fs = Raise TypeError /\
  screen (final text_goodput_fs) = [] /\
  last (calls (final text_goodput_fs)) = Some (call_plot 0) /\
  subplot 0 (final text_goodput_fs) = [].
Proof.
  split; [exact text_goodput_fs_text|].
  exact (proj1 (text_goodput_raises text_goodput_fs) text_goodput_fs_text).
Defined.

Lemma frames_are_rectangular_witness :
  indexed_frame ["t"; "name"; "goodput"] sfq_rows ∈ frames (final sample_fs) /\
  (rectangular (length (records_of (sample_fs !! sfq_csv)))
               (indexed_frame ["t"; "name"; "goodput"] sfq_rows)
   \/ rectangular (length (records_of (sample_fs !! bf_csv)))
                  (indexed_frame ["t"; "name"; "goodput"] sfq_rows)).
Proof.
  assert (H : indexed_frame ["t"; "name"; "goodput"] sfq_rows
                ∈ frames (final sample_fs)).
  { vm_compute. left. }
  split; [exact H|]. exact (frames_are_rectangular sample_fs _ H).
Defined.

Lemma columns_after_set_index_witness :
  tidy (sample_fs !! sfq_csv) = true /\ tidy (sample_fs !! bf_csv) = true /\
  outcome sample_fs = Ok tt /\
  exists f1 f2,
    frames (final sample_fs) = [f1; f2] /\
    (forall key, key <> "t" ->
       get_column key (columns f1)
       = if bool_decide (key ∈ header_of (sample_fs !! sfq_csv))
         then Some (column_of (sample_fs !! sfq_csv) key) else None) /\
    (forall key, key <> "t" ->
       get_column key (columns f2)
       = if bool_decide (key ∈ header_of (sample_fs !! bf_csv))
         then Some (column_of (sample_fs !! bf_csv) key) else None) /\
    get_column "t" (columns f1) = None /\
    get_column "t" (columns f2) = None.
Proof.
  split; [vm_compute; reflexivity|]. split; [vm_compute; reflexivity|].
  split; [vm_compute; reflexivity|].
  apply (columns_after_set_index sample_fs); vm_compute; reflexivity.
Defined.

Lemma blocks_touch_their_own_witness :
  length (figure (stage0 sample_fs)) = 2%nat /\
  frames (stage0 sample_fs)
    `prefix_of` frames (snd (chart2 [0; 1]%nat (stage0 sample_fs))) /\
  figure (snd (chart2 [0; 1]%nat (stage0 sample_fs))) !! 0%nat
    = figure (stage0 sample_fs) !! 0%nat.
Proof.
  split; [reflexivity|].
  destruct (proj2 (blocks_touch_their_own (stage0 sample_fs) eq_refl))
    as (Hp & Hf & _).
  split; [exact Hp|exact Hf].
Defined.

Lemma first_chart_drawn_not_shown_witness :
  chartable (bad_second_fs !! sfq_csv) = true /\
  unusable (bad_second_fs !! bf_csv) /\
  length (subplot 0 (final bad_second_fs)) = 2%nat /\
  screen (final bad_second_fs) = [].
Proof.
  assert (H1 : chartable (bad_second_fs !! sfq_csv) = true)
    by (vm_compute; reflexivity).
  assert (H2 : unusable (bad_second_fs !! bf_csv))
    by (right; left; vm_compute; reflexivity).
  split; [exact H1|]. split; [exact H2|].
  destruct (first_chart_drawn_not_shown bad_second_fs H1 H2) as (Hs & _ & Hsc & _).
  split; [rewrite Hs; vm_compute; reflexivity|exact Hsc].
Defined.

(** ** The revised statements on the sample inputs *)

Lemma steps_in_order_witness :
  well_formed_inputs sample_fs /\
  outcome sample_fs = Ok tt /\
  calls (final sample_fs) = full_log /\
  exists f1 f2 a1 a2,
    frames (final sample_fs) = [f1; f2] /\
    indexed_by_t (sample_fs !! sfq_csv) f1 /\
    indexed_by_t (sample_fs !! bf_csv) f2 /\
    figure (final sample_fs) = [a1; a2] /\
    charts (sample_fs !! sfq_csv)
           "Goodput with Fairness (Stochastic Fairness Queueing)" a1 /\
    charts (sample_fs !! bf_csv) "Goodput with Fairness (Bloom Filter)" a2 /\
    screen (final sample_fs) = [[a1; a2]].
Proof.
  split; [split; vm_compute; reflexivity|].
  apply (proj2 (proj2 (steps_in_order sample_fs))).
  split; vm_compute; reflexivity.
Defined.



